(** * A media server with licensed streaming: the license ledger and the gateway

    Shallow embedding of [server/aux_functions.py] (the license ledger:
    [register], [getLicense], [licenseValid], [updateLicense]) and of
    [server/server.py] (the [MediaServer] resource: catalogue listing, chunked
    download, key exchange, suite negotiation and the [cipher] envelope).

    Conventions of the embedding.
    - Python [bytes] and [str] are both [string]; text is Latin-1, so that
      [encode('latin')] and [decode('latin')] are the identity.  The text
      that [decode('utf-8')] gives is kept as the UTF-8 bytes it was decoded
      from, which determine it; bytes that are not UTF-8 make the decoding
      raise.  On ASCII the two readings of a text agree.
    - Python integers are [Z].  Instants are integers counting microseconds,
      the resolution of [datetime]; the number [d.timestamp()] returns is a
      binary64 float, computed as such.
    - [print] and the logger are left out: the standard output is taken to
      accept what is written to it.
    - A Python exception is a constructor of [pyexn]; code that may raise
      returns a [res].
    - Libraries and modules that are imported by the sources but are not part
      of them ([crypto_functions], [pki], [cc], [licenses], [json],
      [binascii], the [cryptography] package) are interfaces: type classes
      whose methods are the functions the sources call. *)

From Stdlib Require Import ZArith Lia Bool Ascii.
From Stdlib Require Import Floats.SpecFloat.
From stdpp Require Import gmap strings list pretty.

Local Open Scope Z_scope.

(** ** Exceptions and results *)

Inductive pyexn : Type :=
| KeyError
| IndexError
| TypeError
| ValueError
| AttributeError
| UnboundLocalError
| OSError
| UnicodeDecodeError.

Inductive res (A : Type) : Type :=
| Ok (a : A)
| Raise (e : pyexn).

Arguments Ok {A} a.
Arguments Raise {A} e.

(** ** Interfaces of the imported modules *)

(** [crypto_functions.CryptoFunctions]: the list [digests] of supported digest
    names, [create_digest(data, name)] and [symetric_encryption(key, message,
    algorithm_name, cypher_mode, digest_mode, encode)].  The server passes
    attributes that may still be [None], hence the [option] arguments. *)
Class CryptoFunctions : Type := {
  digests : list string;
  create_digest : string -> option string -> res string;
  symetric_encryption :
    option string -> string -> option string -> option string ->
    option string -> bool -> res string
}.

(** [pki.PKI] and [cc.CitizenCard], with the certificate objects of the
    [cryptography] package. *)
Class Credentials : Type := {
  Certificate : Type;
  CertPublicKey : Type;
  validateCerts : string -> list string -> bool;
  getCertFromString : string -> Certificate;
  public_key : Certificate -> CertPublicKey;
  public_bytes_der : Certificate -> string;
  validateSignature : CertPublicKey -> string -> string -> bool
}.

(** [x509.load_der_x509_certificate], which [authenticate] applies to the
    stored certificate. *)
Class X509 {creds : Credentials} : Type := {
  load_der_x509_certificate : string -> res Certificate
}.

(** ** Binary64 floats

    The floats of Python are the binary64 numbers of IEEE 754, here the
    specification floats of the standard library at precision 53, rounding
    to nearest, ties to even. *)
Definition double : Type := spec_float.

Definition double_of_Z (n : Z) : double := binary_normalize 53 1024 n 0 false.
Definition double_add : double -> double -> double := SFadd 53 1024.
Definition double_mul : double -> double -> double := SFmul 53 1024.
Definition double_div : double -> double -> double := SFdiv 53 1024.

(** [modf(x)]: the integral part of a finite [x], rounded toward zero, and
    what is left, both exact. *)
Definition modf (x : double) : Z * double :=
  match x with
  | S754_finite s m e =>
      if 0 <=? e then (cond_Zopp s (Z.pos m * 2 ^ e), S754_zero s)
      else
        let q := Z.pos m / 2 ^ (- e) in
        let r := Z.pos m mod 2 ^ (- e) in
        (cond_Zopp s q, binary_normalize 53 1024 (cond_Zopp s r) e s)
  | _ => (0, x)
  end.

(** The integer nearest to a finite [x], the even one of two that are equally
    near. *)
Definition round_half_even (x : double) : Z :=
  match x with
  | S754_finite s m e =>
      if 0 <=? e then cond_Zopp s (Z.pos m * 2 ^ e)
      else
        let q := Z.pos m / 2 ^ (- e) in
        let r := Z.pos m mod 2 ^ (- e) in
        cond_Zopp s
          match 2 * r ?= 2 ^ (- e) with
          | Lt => q
          | Gt => q + 1
          | Eq => if Z.even q then q else q + 1
          end
  | _ => 0
  end.

(** ** The wall clock

    [datetime.datetime.now()] is a naive local time and
    [datetime.datetime.utcfromtimestamp(ts)] is the naive UTC time of a POSIX
    instant.  A naive time is the count of microseconds from 1970-01-01
    00:00:00 to what it shows.  A clock reading carries the POSIX instant,
    the offset of the server's zone from UTC in force at that instant and
    the rule of the zone, [mktime]: the POSIX second at which the zone shows
    a given naive second (the earlier one when it shows it twice, as
    arithmetic on naive times leaves [fold] at 0).  Readings stay within
    the years 1 to 9999 that [datetime] has. *)
Record Clock : Type := mkClock {
  posix_now : Z;
  utcoffset : Z;
  mktime : Z -> Z
}.

Definition datetime_now (c : Clock) : Z := posix_now c + utcoffset c.

(** The float that [d.timestamp()] returns for a naive [d]: the zone gives
    the POSIX second of the whole seconds of [d], to which
    [d.microsecond / 1e6] is added. *)
Definition timestamp_double (c : Clock) (d : Z) : double :=
  double_add (double_of_Z (mktime c (d / 1000000)))
    (double_div (double_of_Z (d mod 1000000)) (double_of_Z 1000000)).

(** The naive UTC time that [utcfromtimestamp] reads from a float: the
    integral part gives the seconds, the fraction times [1e6], rounded half
    to even, the microseconds. *)
Definition double_micros (x : double) : Z :=
  let '(intpart, floatpart) := modf x in
  intpart * 1000000
  + round_half_even (double_mul floatpart (double_of_Z 1000000)).

(** The ledger keeps a number stored under ['time'] as the microseconds that
    [utcfromtimestamp] reads from it, the one use the sources make of the
    number besides its truth value: [timestamp c d] is [d.timestamp()] so
    kept, and [utcfromtimestamp] returns what is kept. *)
Definition timestamp (c : Clock) (d : Z) : Z :=
  double_micros (timestamp_double c d).
Definition utcfromtimestamp (ts : Z) : Z := ts.

(** * The license ledger, [server/aux_functions.py] *)

Module Licenses.

Definition LICENSE_VIEWS : Z := 4.
(** [datetime.timedelta(minutes=5)] *)
Definition LICENSE_SPAN : Z := 5 * 60 * 1000000.

(** One object of [licenses.json]: the five keys [register] writes. *)
Record User : Type := mkUser {
  username : string;
  passwords : gmap string string;
  views : Z;
  time : Z;
  cert : string
}.

Definition set_views (v : Z) (u : User) : User :=
  mkUser (username u) (passwords u) v (time u) (cert u).
Definition set_time (t : Z) (u : User) : User :=
  mkUser (username u) (passwords u) (views u) t (cert u).

(** The content of [./licenses.json] as [server.getFile] returns it: [None]
    when the file is missing or empty, else the decoded list. *)
Definition LicenseFile : Type := option (list User).

(** [if not usersfile: users = [] else: users = json.loads(usersfile)] *)
Definition load_users (usersfile : LicenseFile) : list User :=
  match usersfile with
  | None => []
  | Some users => users
  end.

(** [for u in users: if u['username'] == username: ...], with the running
    [userindex] of [updateLicense]. *)
Fixpoint find_user (users : list User) (name : string) (userindex : nat)
  : option (User * nat) :=
  match users with
  | [] => None
  | u :: rest =>
      if String.eqb (username u) name then Some (u, userindex)
      else find_user rest name (S userindex)
  end.

(** [for digest in CryptoFunctions.digests:
       user['passwords'][digest] = CryptoFunctions.create_digest(...)] *)
Fixpoint password_digests {crypto : CryptoFunctions} (password : string)
  (ds : list string) (acc : gmap string string) : res (gmap string string) :=
  match ds with
  | [] => Ok acc
  | digest :: rest =>
      match create_digest password (Some digest) with
      | Ok h => password_digests password rest (<[digest := h]> acc)
      | Raise e => Raise e
      end
  end.

(** [register(server, username, password, signature, signcert, intermedium)]:
    the pair it returns (or the exception) and the file it leaves. *)
Definition register {crypto : CryptoFunctions} {creds : Credentials} (c : Clock)
  (usersfile : LicenseFile) (name password signature signcert : string)
  (intermedium : list string) : res (option User * string) * LicenseFile :=
  if String.eqb name "" || String.eqb password "" then
    (Ok (None, "There are attributes missing!"%string), usersfile)
  else if negb (validateCerts signcert intermedium) then
    (Ok (None, "The signature certificate is not valid!"%string), usersfile)
  else
    let certificate := getCertFromString signcert in
    let valid :=
      validateSignature (public_key certificate) (name +:+ password) signature in
    if negb valid then
      (Ok (None, "The signature is not valid!"%string), usersfile)
    else
      let users := load_users usersfile in
      match find_user users name 0 with
      | Some _ =>
          (Ok (None,
               "The username given is already being used! Please choose other."%string),
           usersfile)
      | None =>
          match password_digests password digests ∅ with
          | Raise e => (Raise e, usersfile)
          | Ok pw =>
              let user :=
                mkUser name pw LICENSE_VIEWS
                  (timestamp c (datetime_now c + LICENSE_SPAN))
                  (public_bytes_der certificate) in
              (Ok (Some user, ""%string), Some (users ++ [user]))
          end
      end.

(** [getLicense(server, username)] *)
Definition getLicense (usersfile : LicenseFile) (name : string) : option User :=
  match find_user (load_users usersfile) name 0 with
  | Some (u, _) => Some u
  | None => None
  end.

(** Truth value of a Python number. *)
Definition truthy (n : Z) : bool := negb (n =? 0).

(** [licenseValid(server, username)].  A license object is a non-empty
    dictionary holding both ['views'] and ['time'], so [not license] and
    [attr in license] reduce to the lookup having succeeded. *)
Definition licenseValid (c : Clock) (usersfile : LicenseFile) (name : string)
  : bool :=
  match getLicense usersfile name with
  | None => false
  | Some license =>
      if negb (truthy (views license) && truthy (time license)) then false
      else
        let t := utcfromtimestamp (time license) in
        if t <? datetime_now c then false
        else if views license <=? 0 then false
        else true
  end.

(** [updateLicense(server, username, renew, view)]: the object it returns and
    the file it leaves.  [user] is the very object found in [users], so the
    assignments to its keys and [users[userindex] = user] agree. *)
Definition updateLicense (c : Clock) (usersfile : LicenseFile) (name : string)
  (renew view : bool) : option User * LicenseFile :=
  if String.eqb name "" then (None, usersfile)
  else
    let users := load_users usersfile in
    match find_user users name 0 with
    | None => (None, usersfile)
    | Some (u, userindex) =>
        let user :=
          if renew then
            set_time (timestamp c (datetime_now c + LICENSE_SPAN))
              (set_views LICENSE_VIEWS u)
          else if view then set_views (views u - 1) u
          else u in
        (Some user, Some (<[userindex := user]> users))
    end.

(** The ledger's [consume]: [updateLicense(server, username, view=True)]. *)
Definition consume (c : Clock) (usersfile : LicenseFile) (name : string)
  : LicenseFile :=
  snd (updateLicense c usersfile name false true).

(** [n] successive [consume] calls, each at its own clock reading. *)
Fixpoint consume_n (cs : list Clock) (usersfile : LicenseFile) (name : string)
  : LicenseFile :=
  match cs with
  | [] => usersfile
  | c :: rest => consume_n rest (consume c usersfile name) name
  end.

(** [authenticate(server, username, password, signature, sessionData)]:
    [password] is the digest the client sends, [sessionData] the dictionary of
    the session, read at ['digest'].  Only the first record of the name is
    looked at, every branch of the loop body returning. *)
Definition authenticate {creds : Credentials} {x509 : X509}
  (usersfile : LicenseFile) (name password signature : string)
  (sessionData : gmap string string) : res (option User * string) :=
  match find_user (load_users usersfile) name 0 with
  | None => Ok (None, ""%string)
  | Some (u, _) =>
      match load_der_x509_certificate (cert u) with
      | Raise e => Raise e
      | Ok certificate =>
          let valid :=
            validateSignature (public_key certificate) (name +:+ password)
              signature in
          if negb valid then Ok (None, "The signature is not valid!"%string)
          else
            match sessionData !! "digest"%string with
            | None => Raise KeyError
            | Some digest =>
                match passwords u !! digest with
                | None => Raise KeyError
                | Some stored =>
                    if String.eqb stored password then Ok (Some u, ""%string)
                    else Ok (None, ""%string)
                end
            end
      end
  end.

(** What [updateLicense] does to a record it has found. *)
Definition updated (c : Clock) (renew view : bool) (u : User) : User :=
  if renew then
    set_time (timestamp c (datetime_now c + LICENSE_SPAN))
      (set_views LICENSE_VIEWS u)
  else if view then set_views (views u - 1) u
  else u.

(** The ledger's [renew]: [updateLicense(server, username, renew=True)]. *)
Definition renew (c : Clock) (usersfile : LicenseFile) (name : string)
  : LicenseFile :=
  snd (updateLicense c usersfile name true false).

End Licenses.

(** * More interfaces *)

#[local] Set Warnings "-register-all".

(** The values [json.dumps] is applied to. *)
Inductive json : Type :=
| JStr (s : string)
| JInt (n : Z)
| JArr (items : list json)
| JObj (members : list (string * json)).

(** [json.dumps(v).encode()] and [binascii.b2a_base64]. *)
Class Codec : Type := {
  json_dumps : json -> string;
  b2a_base64 : string -> string
}.

(** The Diffie-Hellman key objects of the [cryptography] package:
    [serialization.load_pem_public_key], [private_key.exchange(peer)] and
    [public_key.public_bytes(PEM, SubjectPublicKeyInfo)]. *)
Class KeyExchange : Type := {
  PrivateKey : Type;
  PublicKey : Type;
  load_pem_public_key : string -> res PublicKey;
  exchange : PrivateKey -> PublicKey -> res string;
  public_bytes_pem : PublicKey -> string
}.

(** The module [licenses], which [server.py] imports with
    [from licenses import *] and which is not among the sources: the state it
    keeps and its [update_license(username, media_duration)], which may raise
    after having changed that state. *)
Class LicensesModule : Type := {
  LedgerState : Type;
  update_license : string -> Z -> LedgerState -> res unit * LedgerState
}.

(** * The media server, [server/server.py] *)

Module Server.

Record MediaItem : Type := mkMedia {
  name : string;
  album : string;
  description : string;
  duration : Z;
  file_name : string;
  file_size : Z
}.

(** The one entry of [CATALOG]. *)
Definition sunny_afternoon : MediaItem :=
  mkMedia "Sunny Afternoon - Upbeat Ukulele Background Music"
          "Upbeat Ukulele Background Music"
          "Nicolai Heidlas Music: http://soundcloud.com/nicolai-heidlas"
          (3 * 60 + 33)
          "898a08080d1840793122b7e118b27a95d117ebce.mp3"
          3407202.

Definition CATALOG : list (string * MediaItem) :=
  [ ("898a08080d1840793122b7e118b27a95d117ebce"%string, sunny_afternoon) ].

Definition CATALOG_BASE : string := "catalog".
Definition CHUNK_SIZE : Z := 1024 * 4.

(** [CATALOG[media_id]], with [media_id in CATALOG] as the lookup succeeding. *)
Fixpoint catalog_get (catalog : list (string * MediaItem)) (media_id : string)
  : option MediaItem :=
  match catalog with
  | [] => None
  | (k, media) :: rest =>
      if String.eqb k media_id then Some media else catalog_get rest media_id
  end.

(** [math.ceil(a / b)] for [b > 0].  The quotient is a double; with
    [b = CHUNK_SIZE], a power of two, it is exact for every size below 2^53,
    and the ceiling is then the integer one. *)
Definition ceil_div (a b : Z) : Z := - ((- a) / b).

(** [os.path.join(CATALOG_BASE, file_name)]: an absolute second component
    replaces the first. *)
Definition path_join (base file : string) : string :=
  match file with
  | String "/"%char _ => file
  | _ => base +:+ "/" +:+ file
  end.

(** *** Text to integer: [int(s)]

    Surrounding white space is dropped, one sign is allowed, and the decimal
    digits may be grouped by single underscores.  The length of the text is
    not bounded here; interpreters from 3.11 on refuse, with the same
    [ValueError], a text of more than 4300 digits. *)
Definition is_space (a : ascii) : bool :=
  let n := Z.of_nat (nat_of_ascii a) in
  ((9 <=? n) && (n <=? 13)) || ((28 <=? n) && (n <=? 32))
  || (n =? 133) || (n =? 160).

Definition digit_of (a : ascii) : option Z :=
  let n := Z.of_nat (nat_of_ascii a) in
  if (48 <=? n) && (n <=? 57) then Some (n - 48) else None.

Fixpoint lstrip (l : list ascii) : list ascii :=
  match l with
  | a :: rest => if is_space a then lstrip rest else l
  | [] => []
  end.

Definition strip (l : list ascii) : list ascii :=
  rev (lstrip (rev (lstrip l))).

Fixpoint parse_digits (l : list ascii) (acc : Z) (after_digit : bool)
  : option Z :=
  match l with
  | [] => if after_digit then Some acc else None
  | a :: rest =>
      match digit_of a with
      | Some d => parse_digits rest (10 * acc + d) true
      | None =>
          if Ascii.eqb a "_" && after_digit then parse_digits rest acc false
          else None
      end
  end.

Definition py_int (s : string) : res Z :=
  let body := strip (String.list_ascii_of_string s) in
  let parsed :=
    match body with
    | "+"%char :: rest => parse_digits rest 0 false
    | "-"%char :: rest => Z.opp <$> parse_digits rest 0 false
    | _ => parse_digits body 0 false
    end in
  match parsed with
  | Some n => Ok n
  | None => Raise ValueError
  end.

(** [s.strip()] on text. *)
Definition py_strip (s : string) : string :=
  String.string_of_list_ascii (strip (String.list_ascii_of_string s)).

(** *** [b.decode('utf-8')]

    The decoder accepts the byte sequences of RFC 3629 and no other: a byte
    below 0x80; a lead byte 0xC2 to 0xDF, 0xE0 to 0xEF or 0xF0 to 0xF4
    followed by one, two or three bytes from 0x80 to 0xBF, where the byte
    after 0xE0 is at least 0xA0 and the one after 0xF0 at least 0x90 (no
    overlong form), the one after 0xED at most 0x9F (no surrogate) and the
    one after 0xF4 at most 0x8F (nothing above U+10FFFF).  [need] counts the
    bytes still due to the character being read and [lo], [hi] bound the
    next of them. *)
Fixpoint utf8_from (l : list N) (need : nat) (lo hi : N) : bool :=
  match l with
  | [] => match need with O => true | S _ => false end
  | b :: rest =>
      match need with
      | O =>
          if (b <? 128)%N then utf8_from rest 0 128%N 191%N
          else if (194 <=? b)%N && (b <=? 223)%N then
            utf8_from rest 1 128%N 191%N
          else if (b =? 224)%N then utf8_from rest 2 160%N 191%N
          else if (b =? 237)%N then utf8_from rest 2 128%N 159%N
          else if (225 <=? b)%N && (b <=? 239)%N then
            utf8_from rest 2 128%N 191%N
          else if (b =? 240)%N then utf8_from rest 3 144%N 191%N
          else if (241 <=? b)%N && (b <=? 243)%N then
            utf8_from rest 3 128%N 191%N
          else if (b =? 244)%N then utf8_from rest 3 128%N 143%N
          else false
      | S k =>
          if (lo <=? b)%N && (b <=? hi)%N then utf8_from rest k 128%N 191%N
          else false
      end
  end.

Definition utf8_valid (s : string) : bool :=
  utf8_from (N_of_ascii <$> String.list_ascii_of_string s) 0 128%N 191%N.

(** The text is kept as the bytes it was decoded from. *)
Definition decode_utf8 (s : string) : res string :=
  if utf8_valid s then Ok s else Raise UnicodeDecodeError.

(** *** The local [chunk_id] of [do_download] and [bytes(chunk_id)]

    The name is unbound until the request argument is read, then holds the
    argument's bytes, then the integer parsed from them.  [bytes(n)] is [n]
    zero bytes and raises on a negative [n]; [bytes(b)] copies [b].  The
    count [n] is taken to be one the machine can allocate: past that bound,
    which is the machine's and not the program's, [bytes(n)] raises
    [OverflowError] or [MemoryError] in place of returning. *)
Inductive chunk_var : Type :=
| ChunkUnbound
| ChunkBytes (b : string)
| ChunkInt (n : Z).

Fixpoint zeros (n : nat) : string :=
  match n with
  | O => EmptyString
  | S k => String Ascii.zero (zeros k)
  end.

Definition py_bytes (v : chunk_var) : res string :=
  match v with
  | ChunkUnbound => Raise UnboundLocalError
  | ChunkBytes b => Ok b
  | ChunkInt n => if n <? 0 then Raise ValueError else Ok (zeros (Z.to_nat n))
  end.

(** What is left of a file after [f.seek(n)]. *)
Fixpoint skip (n : nat) (s : string) : string :=
  match n, s with
  | O, _ => s
  | S k, EmptyString => EmptyString
  | S k, String _ rest => skip k rest
  end.

(** The concatenation of the data of the chunks [0 .. k-1] of a content, each
    read as [do_download] reads it. *)
Definition reassemble (chunk_size k : nat) (content : string) : string :=
  foldr String.append EmptyString
    ((fun n => String.substring (n * chunk_size) chunk_size content) <$> seq 0 k).

Section Handlers.
Context {crypto : CryptoFunctions} {codec : Codec} {kx : KeyExchange}
  {lic : LicensesModule}.

(** An entry of [self.sessions]; the fields are the keys ['public_key'],
    ['private_key'] and ['shared_key'] of the dictionary stored there. *)
Record Session : Type := mkSession {
  session_public_key : PublicKey;
  session_private_key : PrivateKey;
  session_shared_key : string
}.

(** The attributes of a [MediaServer].  [username] is [None] while the
    attribute has never been assigned. *)
Record MediaServer : Type := mkServer {
  parameters : string;
  shared_key : option string;
  CIPHER : option string;
  DIGEST : option string;
  CIPHER_MODE : option string;
  KEY : option string;
  sessions : gmap string Session;
  username : option string
}.

(** [MediaServer.__init__], given the content of the [parameters] file. *)
Definition init (pem : string) : MediaServer :=
  mkServer pem None None None None None ∅ None.

(** A request as the handlers read it. *)
Record Request : Type := mkRequest {
  path : string;
  args : gmap string (list string)
}.

(** Calls that leave the server, in the order they are made. *)
Inductive Event : Type :=
| UpdateLicense (user : string) (media_duration : Z)
| ReadFile (file : string) (offset size : Z).

(** What a handler can change: the server object, the response code and
    headers of the request at hand, the state of [licenses], and the log
    of outside calls; [disk] maps a path to the content of the file. *)
Record World : Type := mkWorld {
  self : MediaServer;
  code : Z;
  responseHeaders : list (string * string);
  ledger : LedgerState;
  trace : list Event;
  disk : gmap string string
}.

Definition M (A : Type) : Type := World -> res A * World.

#[export] Instance M_ret : MRet M := fun A a w => (Ok a, w).
#[export] Instance M_bind : MBind M := fun A B f m w =>
  match m w with
  | (Ok a, w') => f a w'
  | (Raise e, w') => (Raise e, w')
  end.

Definition raise {A : Type} (e : pyexn) : M A := fun w => (Raise e, w).

Definition lift {A : Type} (r : res A) : M A := fun w => (r, w).

(** [try: body except: handler] *)
Definition try_except {A : Type} (body : M A) (handler : M A) : M A :=
  fun w =>
    match body w with
    | (Ok a, w') => (Ok a, w')
    | (Raise _, w') => handler w'
    end.

Definition get_self : M MediaServer := fun w => (Ok (self w), w).

Definition put_self (srv : MediaServer) : M unit := fun w =>
  (Ok tt, mkWorld srv (code w) (responseHeaders w) (ledger w) (trace w) (disk w)).

Definition setResponseCode (n : Z) : M unit := fun w =>
  (Ok tt, mkWorld (self w) n (responseHeaders w) (ledger w) (trace w) (disk w)).

Definition addRawHeader (header value : string) : M unit := fun w =>
  (Ok tt,
   mkWorld (self w) (code w) (responseHeaders w ++ [(header, value)])
     (ledger w) (trace w) (disk w)).

(** The call [update_license(user, media_duration)]. *)
Definition call_update_license (user : string) (media_duration : Z) : M unit :=
  fun w =>
    let '(r, l) := update_license user media_duration (ledger w) in
    (r,
     mkWorld (self w) (code w) (responseHeaders w) l
       (trace w ++ [UpdateLicense user media_duration]) (disk w)).

(** [with open(file, 'rb') as f: f.seek(offset); data = f.read(size)] *)
Definition read_file (file : string) (offset size : Z) : M string := fun w =>
  match disk w !! file with
  | None => (Raise OSError, w)
  | Some content =>
      (Ok (String.substring (Z.to_nat offset) (Z.to_nat size) content),
       mkWorld (self w) (code w) (responseHeaders w) (ledger w)
         (trace w ++ [ReadFile file offset size]) (disk w))
  end.

(** [request.args[key][0]] *)
Definition args_first (request : Request) (key : string) : M string :=
  match args request !! key with
  | None => raise KeyError
  | Some [] => raise IndexError
  | Some (v :: _) => mret v
  end.

(** [request.args.get(key, [default])[0]] *)
Definition args_get_first {A : Type} (request : Request) (key : string)
  (found : string -> A) (default : A) : M A :=
  match args request !! key with
  | None => mret default
  | Some [] => raise IndexError
  | Some (v :: _) => mret (found v)
  end.

(** *** [MediaServer.cipher] *)

(** [self.shared_key if not append else self.shared_key + append]; adding
    bytes to [None] raises. *)
Definition cipher_key (srv : MediaServer) (append : option string)
  : res (option string) :=
  match append with
  | None => Ok (shared_key srv)
  | Some EmptyString => Ok (shared_key srv)
  | Some a =>
      match shared_key srv with
      | Some k => Ok (Some (k +:+ a))
      | None => Raise TypeError
      end
  end.

Definition cipher (response : string) (append : option string) : M string :=
  srv ← get_self;
  key ← lift (cipher_key srv append);
  cryptogram ← lift (symetric_encryption key response (CIPHER srv)
                       (CIPHER_MODE srv) (DIGEST srv) true);
  MIC ← lift (create_digest cryptogram (DIGEST srv));
  addRawHeader "MIC" MIC;;
  mret cryptogram.

(** *** The GET handlers *)

Definition do_parameters (request : Request) : M string :=
  addRawHeader "content-type" "application/json";;
  srv ← get_self;
  mret (json_dumps (JObj [("parameters"%string, JStr (parameters srv))])).

(** The three lists of the dictionary [protocols]. *)
Definition protocols_cipher : list string := ["AES"; "3DEs"]%string.
Definition protocols_digests : list string := ["SHA512"; "BLAKE2"]%string.
Definition protocols_cipher_mode : list string := ["CBC"; "OFB"]%string.

Definition protocols : json :=
  JObj [ ("cipher"%string, JArr (JStr <$> protocols_cipher));
         ("digests"%string, JArr (JStr <$> protocols_digests));
         ("cipher_mode"%string, JArr (JStr <$> protocols_cipher_mode)) ].

Definition do_choose_protocols (request : Request) : M string :=
  addRawHeader "content-type" "application/json";;
  mret (json_dumps protocols).

Definition media_summary (entry : string * MediaItem) : json :=
  let '(media_id, media) := entry in
  JObj [ ("id"%string, JStr media_id);
         ("name"%string, JStr (name media));
         ("description"%string, JStr (description media));
         ("chunks"%string, JInt (ceil_div (file_size media) CHUNK_SIZE));
         ("duration"%string, JInt (duration media)) ].

Definition do_list (catalog : list (string * MediaItem)) (request : Request)
  : M string :=
  let media_list := JArr (media_summary <$> catalog) in
  addRawHeader "content-type" "application/json";;
  cipher (json_dumps media_list) None.

(** The message of a served chunk. *)
Definition chunk_message (media_id : string) (n : Z) (data : string) : string :=
  json_dumps
    (JObj [ ("media_id"%string, JStr media_id);
            ("chunk"%string, JInt n);
            ("data"%string, JStr (py_strip (b2a_base64 data))) ]).

Definition error_message (text : string) : string :=
  json_dumps (JObj [("error"%string, JStr text)]).

(** The reply common to the error branches of [do_download]:
    [return self.cipher(request, message, bytes(chunk_id))] after the
    response code and the content type have been set. *)
Definition seal_with_chunk (message : string) (chunk_id : chunk_var)
  : M string :=
  append ← lift (py_bytes chunk_id);
  cipher message (Some append).

(** The [try] block of [do_download] with its bare [except]: the values that
    [chunk_id] and [valid_chunk] have when the block is left, since an
    exception raised after an assignment leaves the assignment in place.
    [int] may raise before any assignment; reading [self.username] raises
    while the attribute is unset, and [update_license] may raise, both after
    [valid_chunk = True]. *)
Definition check_chunk (media_item : MediaItem) (raw : string)
  : M (chunk_var * bool) :=
  fun w =>
    match py_int raw with
    | Raise _ => (Ok (ChunkBytes raw, false), w)
    | Ok n =>
        if (0 <=? n) && (n <? ceil_div (file_size media_item) CHUNK_SIZE) then
          let update : M unit :=
            match username (self w) with
            | None => raise AttributeError
            | Some user => call_update_license user (duration media_item)
            end in
          (Ok (ChunkInt n, true), snd (update w))
        else (Ok (ChunkInt n, false), w)
    end.

Definition do_download (catalog : list (string * MediaItem))
  (request : Request) : M string :=
  media_id ← args_get_first request "id" Some None;
  match media_id with
  | None =>
      setResponseCode 400;;
      addRawHeader "content-type" "application/json";;
      seal_with_chunk (error_message "invalid media id") ChunkUnbound
  | Some media_id =>
      match catalog_get catalog media_id with
      | None =>
          setResponseCode 404;;
          addRawHeader "content-type" "application/json";;
          seal_with_chunk (error_message "media file not found") ChunkUnbound
      | Some media_item =>
          raw ← args_get_first request "chunk" id "0"%string;
          '(chunk_id, valid_chunk) ← check_chunk media_item raw;
          if negb valid_chunk then
            setResponseCode 400;;
            addRawHeader "content-type" "application/json";;
            seal_with_chunk (error_message "invalid chunk id") chunk_id
          else
            match chunk_id with
            | ChunkInt n =>
                let offset := n * CHUNK_SIZE in
                data ← read_file (path_join CATALOG_BASE (file_name media_item))
                         offset CHUNK_SIZE;
                addRawHeader "content-type" "application/json";;
                seal_with_chunk (chunk_message media_id n data) chunk_id
            | _ =>
                (* not reached: [valid_chunk] is set only once [chunk_id]
                   holds an integer *)
                raise TypeError
            end
      end
  end.

(** The world once the [try] block has accepted a chunk: the license
    update has been called when [self.username] is set, and whatever it
    did to the state of [licenses] stays, also if it raised. *)
Definition after_license_update (media_item : MediaItem) (w : World) : World :=
  match username (self w) with
  | None => w
  | Some user => snd (call_update_license user (duration media_item) w)
  end.

(** The world once the asset has been read and the content type set. *)
Definition after_read (file : string) (offset : Z) (w : World) : World :=
  mkWorld (self w) (code w)
    (responseHeaders w ++ [("content-type"%string, "application/json"%string)])
    (ledger w) (trace w ++ [ReadFile file offset CHUNK_SIZE]) (disk w).

(** The chunk argument a request carries: [b'0'] when it has none. *)
Definition chunk_argument (request : Request) (raw : string) : Prop :=
  (args request !! "chunk"%string = None /\ raw = "0"%string) \/
  (exists rest, args request !! "chunk"%string = Some (raw :: rest)).

(** The world after [request.setResponseCode(status)] and
    [addRawHeader(b"content-type", content_type)]. *)
Definition answering (status : Z) (content_type : string) (w : World) : World :=
  mkWorld (self w) status
    (responseHeaders w ++ [("content-type"%string, content_type)])
    (ledger w) (trace w) (disk w).

(** A body and the world it leaves come out of [cipher]. *)
Definition sealed (body : string) (w' : World) : Prop :=
  exists response append w, cipher response append w = (Ok body, w').

(** [render_GET]: the dispatch on [request.path] inside
    [try: ... except Exception]. *)
Definition render_GET (catalog : list (string * MediaItem))
  (request : Request) : M string :=
  try_except
    (if String.eqb (path request) "/api/parameters" then do_parameters request
     else if String.eqb (path request) "/api/protocols" then
       do_choose_protocols request
     else if String.eqb (path request) "/api/list" then do_list catalog request
     else if String.eqb (path request) "/api/download" then
       do_download catalog request
     else
       addRawHeader "content-type" "text/plain";;
       mret "Methods: /api/protocols /api/list /api/download"%string)
    (setResponseCode 500;;
     addRawHeader "content-type" "text/plain";;
     mret ""%string).

(** *** The POST handlers; [None] is Python's [None] *)

Definition set_CIPHER (v : string) (srv : MediaServer) : MediaServer :=
  mkServer (parameters srv) (shared_key srv) (Some v) (DIGEST srv)
    (CIPHER_MODE srv) (KEY srv) (sessions srv) (username srv).
Definition set_DIGEST (v : string) (srv : MediaServer) : MediaServer :=
  mkServer (parameters srv) (shared_key srv) (CIPHER srv) (Some v)
    (CIPHER_MODE srv) (KEY srv) (sessions srv) (username srv).
Definition set_CIPHER_MODE (v : string) (srv : MediaServer) : MediaServer :=
  mkServer (parameters srv) (shared_key srv) (CIPHER srv) (DIGEST srv)
    (Some v) (KEY srv) (sessions srv) (username srv).
Definition set_sessions (m : gmap string Session) (srv : MediaServer)
  : MediaServer :=
  mkServer (parameters srv) (shared_key srv) (CIPHER srv) (DIGEST srv)
    (CIPHER_MODE srv) (KEY srv) m (username srv).

Definition modify_self (f : MediaServer -> MediaServer) : M unit :=
  srv ← get_self; put_self (f srv).

(** The world after [addRawHeader(b"MIC", MIC)]. *)
Definition with_MIC (MIC : string) (w : World) : World :=
  mkWorld (self w) (code w) (responseHeaders w ++ [("MIC"%string, MIC)])
    (ledger w) (trace w) (disk w).

(** The world in which [self.sessions] is [m]. *)
Definition with_sessions (m : gmap string Session) (w : World) : World :=
  mkWorld (set_sessions m (self w)) (code w) (responseHeaders w) (ledger w)
    (trace w) (disk w).

(** [request.args] is a dictionary, so the test [data == None or data == '']
    is false and the three assignments run in turn, each of the value
    [request.args[key][0].decode('utf-8')]. *)
Definition process_negotiation (request : Request) : M (option string) :=
  v ← args_first request "cipher";
  v ← lift (decode_utf8 v);
  modify_self (set_CIPHER v);;
  v ← args_first request "digest";
  v ← lift (decode_utf8 v);
  modify_self (set_DIGEST v);;
  v ← args_first request "cipher_mode";
  v ← lift (decode_utf8 v);
  modify_self (set_CIPHER_MODE v);;
  mret None.

(** [new_license] stops at [username, password = ""], which cannot unpack
    an empty string into two names. *)
Definition new_license (request : Request) : M (option string) :=
  raise ValueError.

(** [do_public_key]; [sessionid] and [keys] are the values that
    [uuid.uuid1()] and [CryptoFunctions.newKeys(self.parameters)] give at
    this call. *)
Definition do_public_key (sessionid : string)
  (keys : PrivateKey * PublicKey) (request : Request) : M (option string) :=
  pem ← args_first request "public_key";
  client_public_key ← lift (load_pem_public_key pem);
  let '(private_key, public_key) := keys in
  shared ← lift (exchange private_key client_public_key);
  let pk := public_bytes_pem public_key in
  modify_self (fun srv =>
    set_sessions (<[sessionid := mkSession public_key private_key shared]>
                    (sessions srv)) srv);;
  addRawHeader "sessionid" sessionid;;
  mret (Some (json_dumps (JObj [("public_key"%string, JStr pk)]))).

Definition render_POST (sessionid : string) (keys : PrivateKey * PublicKey)
  (request : Request) : M (option string) :=
  try_except
    (if String.eqb (path request) "/api/suite" then process_negotiation request
     else if String.eqb (path request) "/api/publickey" then
       do_public_key sessionid keys request
     else if String.eqb (path request) "/api/newLicense" then
       new_license request
     else mret None)
    (setResponseCode 501;;
     addRawHeader "content-type" "text/plain";;
     mret (Some ""%string)).

(** The bytes [do_download] reads for chunk [n] of an asset. *)
Definition chunk_data (content : string) (n : Z) : string :=
  String.substring (Z.to_nat (n * CHUNK_SIZE)) (Z.to_nat CHUNK_SIZE) content.

(** A new request object: code 200 and no response header yet. *)
Definition begin_request (w : World) : World :=
  mkWorld (self w) 200 [] (ledger w) (trace w) (disk w).

(** The worlds a server started by [MediaServer()], with the state [l] of
    [licenses], can be in after any sequence of GET and POST requests. *)
Inductive reachable (l : LedgerState) : World -> Prop :=
| reachable_init (pem : string) (d : gmap string string) :
    reachable l (mkWorld (init pem) 200 [] l [] d)
| reachable_GET (w : World) (request : Request) :
    reachable l w ->
    reachable l (snd (render_GET CATALOG request (begin_request w)))
| reachable_POST (w : World) (sessionid : string)
    (keys : PrivateKey * PublicKey) (request : Request) :
    reachable l w ->
    reachable l (snd (render_POST sessionid keys request (begin_request w))).

(** No call of [update_license] is in the log. *)
Definition no_update (t : list Event) : Prop :=
  forall user media_duration, UpdateLicense user media_duration ∉ t.

End Handlers.

End Server.

(** * The client's choice of a suite, [client/aux_functions.py] *)

Module Client.

(** How a client function ends: it returns, raises, finds the standard input
    at its end ([input()] raising [EOFError]), or calls [exit()]. *)
Inductive outcome (A : Type) : Type :=
| Returned (a : A)
| Raised (e : pyexn)
| EndOfInput
| Exited.

Arguments Returned {A} a.
Arguments Raised {A} e.
Arguments EndOfInput {A}.
Arguments Exited {A}.

(** The body of [req.json()] for [/api/protocols]. *)
Record Protocols : Type := mkProtocols {
  cipher : list string;
  digests : list string;
  cipher_mode : list string
}.

(** The dictionary [cipherSuite]. *)
Record CipherSuite : Type := mkSuite {
  suite_cipher : string;
  suite_digest : string;
  suite_cipher_mode : string
}.

(** One [while True] menu: lines are read with [int(input())] until one is
    between 1 and the number of options; the option at that place is the
    choice.  The lines left unread are returned with it. *)
Fixpoint choose (options : list string) (inputs : list string)
  : outcome (string * list string) :=
  match inputs with
  | [] => EndOfInput
  | line :: rest =>
      match Server.py_int line with
      | Raise e => Raised e
      | Ok op =>
          if (1 <=? op) && (op <=? Z.of_nat (length options)) then
            match options !! Z.to_nat (op - 1) with
            | Some o => Returned (o, rest)
            | None => Raised IndexError
            end
          else choose options rest
      end
  end.

(** A line that [int] reads as a number outside the menu. *)
Definition out_of_menu (options : list string) (line : string) : Prop :=
  exists v, Server.py_int line = Ok v /\
            ~ (1 <= v <= Z.of_nat (length options)).

(** [client_chosen_options(server_url)], given the status code and the body
    of the server's answer and the lines typed.  The second menu assigns its
    choice to [cipher] again, and [digest] is the variable of the loop that
    prints the digests. *)
Definition client_chosen_options (status_code : Z) (protocols : Protocols)
  (inputs : list string) : outcome (CipherSuite * list string) :=
  if negb (status_code =? 200) then Exited
  else
    match choose (cipher protocols) inputs with
    | Returned (_, inputs1) =>
        match choose (digests protocols) inputs1 with
        | Returned (cipher_name, inputs2) =>
            match last (digests protocols) with
            | None => Raised UnboundLocalError
            | Some digest =>
                match choose (cipher_mode protocols) inputs2 with
                | Returned (mode, inputs3) =>
                    Returned (mkSuite cipher_name digest mode, inputs3)
                | Raised e => Raised e
                | EndOfInput => EndOfInput
                | Exited => Exited
                end
            end
        | Raised e => Raised e
        | EndOfInput => EndOfInput
        | Exited => Exited
        end
    | Raised e => Raised e
    | EndOfInput => EndOfInput
    | Exited => Exited
    end.

End Client.

(** * Running the code: a transparent implementation of the interfaces

    The handlers are stated over any implementation of the imported modules.
    To evaluate them on concrete requests the interfaces are implemented here
    by functions whose results show their arguments. *)

Module Plain.

Definition quote : string := String (ascii_of_nat 34) EmptyString.
Definition newline : string := String (ascii_of_nat 10) EmptyString.

Fixpoint join (sep : string) (l : list string) : string :=
  match l with
  | [] => EmptyString
  | [x] => x
  | x :: rest => x +:+ sep +:+ join sep rest
  end.

(** [json.dumps] with its default separators; strings are written without
    escapes. *)
Fixpoint dumps (j : json) : string :=
  match j with
  | JStr s => quote +:+ s +:+ quote
  | JInt n => pretty n
  | JArr items => "[" +:+ join ", " (map dumps items) +:+ "]"
  | JObj members =>
      "{" +:+
      join ", "
        (map (fun kv => quote +:+ fst kv +:+ quote +:+ ": " +:+ dumps (snd kv))
           members) +:+
      "}"
  end.

Definition codec : Codec :=
  {| json_dumps := dumps;
     b2a_base64 := fun data => data +:+ newline |}.

(** A cipher that refuses a missing key or a missing suite name and
    otherwise writes the suite and the key in front of the message; a digest
    that writes its name in front of the data. *)
Definition crypto : CryptoFunctions :=
  {| digests := ["SHA512"; "BLAKE2"]%string;
     create_digest := fun data name =>
       match name with
       | Some n => Ok (n +:+ "(" +:+ data +:+ ")")
       | None => Raise TypeError
       end;
     symetric_encryption := fun key message algorithm_name cypher_mode _ _ =>
       match key, algorithm_name, cypher_mode with
       | Some k, Some a, Some m =>
           Ok (a +:+ "-" +:+ m +:+ "<" +:+ k +:+ ">" +:+ message)
       | _, _, _ => Raise TypeError
       end |}.

(** Certificates are their own text and public key; a chain is valid when
    it is not empty, and a signature when it is the message after the key. *)
Definition credentials : Credentials :=
  {| Certificate := string;
     CertPublicKey := string;
     validateCerts := fun _ intermedium =>
       match intermedium with [] => false | _ => true end;
     getCertFromString := fun signcert => signcert;
     public_key := fun certificate => certificate;
     public_bytes_der := fun certificate => certificate;
     validateSignature := fun key message sign =>
       String.eqb sign (key +:+ message) |}.

(** A stored certificate loads when it is not empty. *)
Definition x509 : @X509 credentials :=
  {| load_der_x509_certificate := fun der =>
       match der with
       | EmptyString => Raise ValueError
       | _ => Ok (der : @Certificate credentials)
       end |}.

(** Diffie-Hellman in the group of the integers modulo 23, keys written in
    decimal. *)
Definition dh : KeyExchange :=
  {| PrivateKey := Z;
     PublicKey := Z;
     load_pem_public_key := Server.py_int;
     exchange := fun x y => Ok (pretty (y ^ x mod 23));
     public_bytes_pem := fun y => pretty y |}.

(** Modelled from the spec: the module [licenses] is not among the sources,
    so its [update_license(username, media_duration)] is taken to be the
    ledger's [consume(username)] on the license file, at a given clock
    reading. *)
Definition file_ledger (c : Clock) : LicensesModule :=
  {| LedgerState := Licenses.LicenseFile;
     update_license := fun user _ usersfile =>
       (Ok tt, Licenses.consume c usersfile user) |}.

End Plain.

(** ** Concrete ledgers, servers and requests *)

Module Scenario.
Import Licenses Server.

(** A server clock in a UTC zone, and one five hours west of it. *)
Definition noon : Clock := mkClock 1700000000000000 0 (fun s => s).
Definition noon_west : Clock :=
  mkClock 1700000000000000 (- 18000000000) (fun s => s + 18000).

(** A server in the zone of Lisbon at 2023-10-29 00:57:00 UTC, when its
    clocks show 01:57:00, three minutes before they go back from 02:00
    (UTC+1) to 01:00 (UTC): a naive time of that day before 02:00 is read an
    hour ahead of UTC, a later one as UTC. *)
Definition lisbon_fall_back : Clock :=
  mkClock 1698541020000000 3600000000
    (fun s => if s <? 1698544800 then s - 3600 else s).

(** The same server at 01:30:00 UTC of that day, in the hour its clocks show
    for the second time, now at the offset of UTC. *)
Definition lisbon_repeated_hour : Clock :=
  mkClock 1698543000000000 0
    (fun s => if s <? 1698544800 then s - 3600 else s).

(** A server in a UTC zone at 2242-06-01 11:55:00.015838. *)
Definition utc_2242 : Clock := mkClock 8596583700015838 0 (fun s => s).

Definition alice (v t : Z) : User :=
  mkUser "alice" ∅ v t "cert-of-alice".

(** A ledger holding one license for alice with [v] views, expiring at [t]. *)
Definition ledger_of (v t : Z) : LicenseFile := Some [alice v t].

Definition media_id : string := "898a08080d1840793122b7e118b27a95d117ebce".
Definition media_path : string :=
  "catalog/898a08080d1840793122b7e118b27a95d117ebce.mp3".

Definition download (arguments : list (string * list string)) : Request :=
  mkRequest "/api/download" (list_to_map arguments).

(** The world of one request: response code 200, no header yet, nothing
    logged. *)
Definition world (srv : @MediaServer Plain.dh) (usersfile : LicenseFile)
  (files : gmap string string) : @World Plain.dh (Plain.file_ledger noon) :=
  @mkWorld Plain.dh (Plain.file_ledger noon) srv 200 [] usersfile [] files.

(** A server just started, with no license file and no asset. *)
Definition fresh : @World Plain.dh (Plain.file_ledger noon) :=
  world (init "PEM") None ∅.

(** A server whose attributes hold a key, a suite and a username. *)
Definition negotiated : @MediaServer Plain.dh :=
  mkServer "PEM" (Some "K"%string) (Some "AES"%string) (Some "SHA512"%string)
    (Some "CBC"%string) None ∅ (Some "alice"%string).


(** A ten-byte asset under the catalogue's file name. *)
Definition assets : gmap string string := {[ media_path := "0123456789"%string ]}.

Definition publickey (pem : string) : Request :=
  mkRequest "/api/publickey" {[ "public_key"%string := [pem] ]}.

Definition suite (cipher_name digest_name mode_name : string) : Request :=
  mkRequest "/api/suite"
    (list_to_map [ ("cipher"%string, [cipher_name]);
                   ("digest"%string, [digest_name]);
                   ("cipher_mode"%string, [mode_name]) ]).


(** The record that registering alice with the password [secret] creates at
    noon, and a session dictionary naming a digest. *)
Definition alice_registered : User :=
  mkUser "alice"
    (<["BLAKE2"%string := "BLAKE2(secret)"%string]>
       (<["SHA512"%string := "SHA512(secret)"%string]> ∅))
    4 (posix_now noon + 5 * 60 * 1000000) "cert-of-alice".

Definition session_of (digest : string) : gmap string string :=
  {[ "digest"%string := digest ]}.

(** The state of [licenses] with no license file. *)
Definition no_licenses : @LedgerState (Plain.file_ledger noon) :=
  (None : LicenseFile).

(** The answer of [do_choose_protocols], as the client decodes it. *)
Definition offered : Client.Protocols :=
  Client.mkProtocols protocols_cipher protocols_digests protocols_cipher_mode.

End Scenario.

(** * Properties of the license ledger *)

Section LedgerFacts.
Import Licenses.

(** ** Searching the users list *)

Lemma find_user_sound (users : list User) (name : string) (i j : nat) (u : User) :
  find_user users name i = Some (u, j) ->
  username u = name /\ (i <= j)%nat /\ users !! (j - i)%nat = Some u.
Proof.
  revert i. induction users as [|v rest IH]; intros i Hf; simpl in Hf.
  - discriminate.
  - destruct (String.eqb (username v) name) eqn:E.
    + inversion Hf; subst. apply String.eqb_eq in E.
      replace (j - j)%nat with 0%nat by lia. auto.
    + apply IH in Hf as (Hn & Hle & Hl). split; [exact Hn|]. split; [lia|].
      replace (j - i)%nat with (S (j - S i)) by lia. exact Hl.
Qed.

(** Writing back, at the index found, an object with the same username
    leaves the search finding that object. *)
Lemma find_user_insert (users : list User) (name : string) (i j : nat)
  (u u' : User) :
  find_user users name i = Some (u, j) ->
  username u' = name ->
  find_user (<[(j - i)%nat := u']> users) name i = Some (u', j).
Proof.
  revert i. induction users as [|v rest IH]; intros i Hf Hn; simpl in Hf.
  - discriminate.
  - destruct (String.eqb (username v) name) eqn:E.
    + inversion Hf; subst v j. replace (i - i)%nat with 0%nat by lia. simpl.
      rewrite Hn, String.eqb_refl. reflexivity.
    + pose proof (find_user_sound _ _ _ _ _ Hf) as (_ & Hle & _).
      replace (j - i)%nat with (S (j - S i)) by lia. simpl. rewrite E.
      apply IH; assumption.
Qed.

Lemma getLicense_Some (usersfile : LicenseFile) (name : string) (u : User) :
  getLicense usersfile name = Some u ->
  exists j, find_user (load_users usersfile) name 0 = Some (u, j).
Proof.
  unfold getLicense. destruct (find_user _ _ _) as [[v j]|]; [|discriminate].
  intros [= ->]. eauto.
Qed.

(** ** One [consume] *)

Lemma consume_once (c : Clock) (usersfile : LicenseFile) (name : string)
  (u : User) :
  name <> ""%string ->
  getLicense usersfile name = Some u ->
  getLicense (consume c usersfile name) name = Some (set_views (views u - 1) u).
Proof.
  intros Hne Hg. apply getLicense_Some in Hg as [j Hf].
  unfold consume, updateLicense.
  destruct (String.eqb name "") eqn:E; [apply String.eqb_eq in E; contradiction|].
  rewrite Hf. simpl. unfold getLicense. simpl.
  pose proof (find_user_sound _ _ _ _ _ Hf) as (Hn & _ & _).
  replace j with (j - 0)%nat at 1 by lia.
  erewrite find_user_insert; [reflexivity|exact Hf|exact Hn].
Qed.

(** ** The validity check, as the code computes it *)

Lemma licenseValid_spec (c : Clock) (usersfile : LicenseFile) (name : string) :
  licenseValid c usersfile name = true <->
  exists u, getLicense usersfile name = Some u /\
            0 < views u /\ time u <> 0 /\
            datetime_now c <= utcfromtimestamp (time u).
Proof.
  unfold licenseValid, truthy, utcfromtimestamp.
  destruct (getLicense usersfile name) as [u|].
  - destruct (Z.eqb_spec (views u) 0), (Z.eqb_spec (time u) 0),
      (Z.ltb_spec (time u) (datetime_now c)), (Z.leb_spec (views u) 0); simpl;
      split; try discriminate;
      try (intros (u' & [= <-] & ? & ? & ?); lia);
      intros _; exists u; repeat split; lia.
  - split; [discriminate|]. intros (u & [=] & _).
Qed.

(** ** The digests [register] stores *)

Lemma password_digests_sound {crypto : CryptoFunctions} (password : string)
  (ds : list string) (acc m : gmap string string) :
  (forall d h, acc !! d = Some h -> create_digest password (Some d) = Ok h) ->
  password_digests password ds acc = Ok m ->
  (forall d h, m !! d = Some h -> create_digest password (Some d) = Ok h) /\
  (forall d, d ∈ ds -> is_Some (m !! d)) /\
  (forall d, is_Some (acc !! d) -> is_Some (m !! d)).
Proof.
  revert acc. induction ds as [|d0 rest IH]; intros acc Hacc Hp; simpl in Hp.
  - inversion Hp; subst. split; [exact Hacc|]. split; [|auto].
    intros d Hd. inversion Hd.
  - destruct (create_digest password (Some d0)) as [h0|e] eqn:E; [|discriminate].
    apply IH in Hp as (Hm & Hin & Hkeep).
    + split; [exact Hm|]. split.
      * intros d Hd. apply elem_of_cons in Hd as [->|Hd]; [|auto].
        apply Hkeep. rewrite lookup_insert_eq. eauto.
      * intros d Hd. apply Hkeep. destruct (decide (d0 = d)) as [->|Hne].
        -- rewrite lookup_insert_eq. eauto.
        -- rewrite lookup_insert_ne by exact Hne. exact Hd.
    + intros d h Hl. destruct (decide (d0 = d)) as [->|Hne].
      * rewrite lookup_insert_eq in Hl. congruence.
      * rewrite lookup_insert_ne in Hl by exact Hne. auto.
Qed.

End LedgerFacts.

(** * The claims about the license ledger *)

Section LedgerClaims.
Import Licenses Scenario.

Lemma set_views_twice (a b : Z) (u : User) :
  set_views a (set_views b u) = set_views a u.
Proof. reflexivity. Qed.

(** C1, as the code has it.  [consume] takes one view off the counter at
    every call and has no floor: after [n] calls a counter that stood at [v]
    stands at [v - n].  From 4, four calls give exactly 0 and each further
    call gives a negative counter. *)
Theorem consume_decrements_without_floor (cs : list Clock)
  (usersfile : LicenseFile) (name : string) (u : User) :
  name <> ""%string ->
  getLicense usersfile name = Some u ->
  getLicense (consume_n cs usersfile name) name =
    Some (set_views (views u - Z.of_nat (length cs)) u).
Proof.
  intros Hne. revert usersfile u.
  induction cs as [|c rest IH]; intros usersfile u Hg; simpl consume_n.
  - rewrite Hg. destruct u; unfold set_views; simpl. do 2 f_equal. lia.
  - rewrite (IH _ _ (consume_once c _ _ _ Hne Hg)).
    rewrite set_views_twice. simpl views. do 2 f_equal.
    rewrite length_cons. lia.
Qed.

Lemma consume_decrements_without_floor_witness :
  "alice"%string <> ""%string /\
  getLicense (ledger_of 4 7) "alice" = Some (alice 4 7) /\
  getLicense (consume_n [noon; noon; noon; noon; noon] (ledger_of 4 7) "alice")
    "alice" = Some (set_views (views (alice 4 7) - 5) (alice 4 7)).
Proof.
  split; [discriminate|]. split; [reflexivity|].
  apply (consume_decrements_without_floor [noon; noon; noon; noon; noon]
           (ledger_of 4 7) "alice" (alice 4 7)); [discriminate|reflexivity].
Defined.

(** C1, as stated, fails: a counter at 0 does not stay at 0 under [consume],
    and a fifth [consume] after registration leaves -1. *)
Lemma consume_at_zero_goes_negative :
  views <$> getLicense (ledger_of 0 7) "alice" = Some 0 /\
  views <$> getLicense (consume noon (ledger_of 0 7) "alice") "alice"
    = Some (-1) /\
  views <$> getLicense
              (consume_n [noon; noon; noon; noon; noon] (ledger_of 4 7) "alice")
              "alice" = Some (-1).
Proof. repeat split; vm_compute; reflexivity. Qed.

(** C3, as the code has it, on a server whose zone is UTC and whose clock
    reads after the epoch: a license is valid exactly when a record exists,
    views remain, and the expiry instant is not before the current instant,
    so that it is still valid at the very instant it expires; and a record
    whose expiry lies in the past is invalid whatever its views. *)
Theorem licenseValid_iff_not_expired (c : Clock) (usersfile : LicenseFile)
  (name : string) :
  utcoffset c = 0 ->
  0 < posix_now c ->
  (licenseValid c usersfile name = true <->
     exists u, getLicense usersfile name = Some u /\
               0 < views u /\ posix_now c <= time u) /\
  (forall u, getLicense usersfile name = Some u -> time u < posix_now c ->
             licenseValid c usersfile name = false).
Proof.
  intros Hz Hpos.
  assert (Hnow : datetime_now c = posix_now c) by (unfold datetime_now; lia).
  split.
  - rewrite licenseValid_spec. unfold utcfromtimestamp. rewrite Hnow.
    split; intros (u & Hg & Hv & Ht); exists u; repeat split; try tauto; lia.
  - intros u Hg Hlt. destruct (licenseValid c usersfile name) eqn:E; [|reflexivity].
    apply licenseValid_spec in E as (u' & Hg' & _ & _ & Hle).
    rewrite Hg in Hg'. inversion Hg'; subst u'.
    unfold utcfromtimestamp in Hle. lia.
Qed.

Lemma licenseValid_iff_not_expired_witness :
  utcoffset noon = 0 /\ 0 < posix_now noon /\
  licenseValid noon (ledger_of 4 (posix_now noon + 1)) "alice" = true /\
  licenseValid noon (ledger_of 4 (posix_now noon - 1)) "alice" = false.
Proof.
  split; [reflexivity|]. split; [reflexivity|]. split.
  - apply (proj1 (licenseValid_iff_not_expired noon
                    (ledger_of 4 (posix_now noon + 1)) "alice"
                    eq_refl eq_refl)).
    exists (alice 4 (posix_now noon + 1)).
    split; [reflexivity|]. split; [reflexivity|]. simpl. lia.
  - apply (proj2 (licenseValid_iff_not_expired noon
                    (ledger_of 4 (posix_now noon - 1)) "alice"
                    eq_refl eq_refl) (alice 4 (posix_now noon - 1)));
      [reflexivity|simpl; lia].
Defined.

(** C3, as stated, fails: at the instant of expiry the license is valid,
    although its expiry is not strictly after the current time. *)
Lemma licenseValid_at_expiry_instant :
  licenseValid noon (ledger_of 1 (posix_now noon)) "alice" = true /\
  ~ (exists u, getLicense (ledger_of 1 (posix_now noon)) "alice" = Some u /\
               0 < views u /\ posix_now noon < time u).
Proof.
  split; [vm_compute; reflexivity|].
  intros (u & Hg & _ & Hlt). vm_compute in Hg. inversion Hg; subst u.
  simpl in Hlt. lia.
Qed.

(** The comparison is between the UTC reading of the expiry and the local
    reading of the clock: five hours west of UTC a license that expired an
    hour ago still passes. *)
Example licenseValid_west_of_utc :
  licenseValid noon_west (ledger_of 1 (posix_now noon_west - 3600000000))
    "alice" = true.
Proof. vm_compute. reflexivity. Qed.

End LedgerClaims.

Section RegisterClaims.
Import Licenses Scenario.

Lemma password_digests_total {crypto : CryptoFunctions} (password : string)
  (ds : list string) (acc : gmap string string) :
  (forall d, d ∈ ds -> exists h, create_digest password (Some d) = Ok h) ->
  exists m, password_digests password ds acc = Ok m.
Proof.
  revert acc. induction ds as [|d0 rest IH]; intros acc Hall; simpl.
  - eauto.
  - destruct (Hall d0) as [h0 Hh0]; [left|]. rewrite Hh0.
    apply IH. intros d Hd. apply Hall. right. exact Hd.
Qed.

(** What [register] does at every clock reading.  A registration that
    succeeds stores, for every digest name of [CryptoFunctions.digests], the
    digest of the password under that name, grants 4 views, keeps as the
    expiry the number [(now() + LICENSE_SPAN).timestamp()] and appends the
    record to the file; it does succeed when the attributes are present, the
    certificate chain and the signature are valid, the username is free and
    every digest can be computed; and a username that already has a record
    is rejected with the file left as it was. *)
Lemma register_spec {crypto : CryptoFunctions} {creds : Credentials} (c : Clock)
  (usersfile : LicenseFile) (name password signature signcert : string)
  (intermedium : list string) :
  (forall user msg usersfile',
      register c usersfile name password signature signcert intermedium
        = (Ok (Some user, msg), usersfile') ->
      username user = name /\
      views user = 4 /\
      time user = timestamp c (datetime_now c + LICENSE_SPAN) /\
      (forall d, d ∈ digests ->
                 exists h, create_digest password (Some d) = Ok h /\
                           passwords user !! d = Some h) /\
      usersfile' = Some (load_users usersfile ++ [user])) /\
  (name <> ""%string -> password <> ""%string ->
   validateCerts signcert intermedium = true ->
   validateSignature (public_key (getCertFromString signcert))
     (name +:+ password) signature = true ->
   getLicense usersfile name = None ->
   (forall d, d ∈ digests -> exists h, create_digest password (Some d) = Ok h) ->
   exists user,
     register c usersfile name password signature signcert intermedium
       = (Ok (Some user, ""%string), Some (load_users usersfile ++ [user]))) /\
  (is_Some (getLicense usersfile name) ->
   exists msg,
     register c usersfile name password signature signcert intermedium
       = (Ok (None, msg), usersfile)).
Proof.
  split; [|split].
  - intros user msg usersfile'. unfold register.
    destruct (String.eqb name "" || String.eqb password ""); [discriminate|].
    destruct (negb (validateCerts signcert intermedium)); [discriminate|].
    destruct (negb (validateSignature _ _ _)); [discriminate|].
    destruct (find_user (load_users usersfile) name 0); [discriminate|].
    destruct (password_digests password digests ∅) as [pw|e] eqn:Ep;
      [|discriminate].
    intros [= <- _ <-]. simpl.
    apply password_digests_sound in Ep as (Hm & Hin & _).
    + repeat split; try reflexivity.
      intros d Hd. destruct (Hin d Hd) as [h Hh]. exists h. auto.
    + intros d h Hl. rewrite lookup_empty in Hl. discriminate.
  - intros Hn Hp Hc Hs Hg Hd. unfold register.
    apply String.eqb_neq in Hn, Hp. rewrite Hn, Hp, Hc, Hs. simpl.
    unfold getLicense in Hg.
    destruct (find_user (load_users usersfile) name 0) as [[v j]|];
      [discriminate|].
    destruct (password_digests_total password digests ∅ Hd) as [pw Hpw].
    rewrite Hpw. eauto.
  - intros [u Hg]. unfold register.
    destruct (String.eqb name "" || String.eqb password ""); [eauto|].
    destruct (negb (validateCerts signcert intermedium)); [eauto|].
    destruct (negb (validateSignature _ _ _)); [eauto|].
    unfold getLicense in Hg.
    destruct (find_user (load_users usersfile) name 0) as [[v j]|];
      [eauto|discriminate].
Qed.

(** At noon on a UTC server the expiry kept is five minutes after the
    registration. *)
Lemma register_at_noon :
  (exists user,
      @register Plain.crypto Plain.credentials noon None "alice" "secret"
        "cert-of-alicealicesecret" "cert-of-alice" ["root"%string]
        = (Ok (Some user, ""%string), Some [user]) /\
      views user = 4 /\
      time user = posix_now noon + 5 * 60 * 1000000 /\
      exists h, passwords user !! "BLAKE2"%string = Some h) /\
  (exists msg,
      @register Plain.crypto Plain.credentials noon (ledger_of 4 7) "alice"
        "secret" "cert-of-alicealicesecret" "cert-of-alice" ["root"%string]
        = (Ok (None, msg), ledger_of 4 7)).
Proof.
  split.
  - destruct (register_spec (crypto := Plain.crypto) (creds := Plain.credentials)
                noon None "alice" "secret" "cert-of-alicealicesecret"
                "cert-of-alice" ["root"%string]) as (Hsucc & Hex & _).
    destruct Hex as [user Hu];
      [discriminate|discriminate|reflexivity|reflexivity|reflexivity| |].
    + intros d _. eexists. reflexivity.
    + exists user. split; [exact Hu|].
      destruct (Hsucc _ _ _ Hu) as (_ & Hv & Ht & Hd & _).
      split; [exact Hv|]. split; [rewrite Ht; vm_compute; reflexivity|].
      destruct (Hd "BLAKE2"%string) as (h & _ & Hh);
        [right; left|exists h; exact Hh].
  - apply (register_spec (crypto := Plain.crypto) (creds := Plain.credentials)
             noon (ledger_of 4 7) "alice" "secret" "cert-of-alicealicesecret"
             "cert-of-alice" ["root"%string]).
    eexists. reflexivity.
Defined.

(** There the number [(now() + LICENSE_SPAN).timestamp()] is the instant 65
    minutes after the call. *)
Lemma granted_expiry_lisbon :
  timestamp lisbon_fall_back (datetime_now lisbon_fall_back + LICENSE_SPAN)
    = posix_now lisbon_fall_back + 65 * 60 * 1000000.
Proof. vm_compute. reflexivity. Qed.

(** C5 at the failing input: a registration on a server in the zone of
    Lisbon at 2023-10-29 00:57:00 UTC, in the last five minutes before the
    clocks of the zone go back an hour.  [now() + LICENSE_SPAN] is the naive
    time 02:02:00, which [timestamp()] reads at the offset in force after
    the change: every registration that succeeds there grants 4 views and
    keeps as the expiry the instant 65 minutes after the registration, not
    the one 5 minutes after it. *)
Theorem register_before_clocks_go_back {crypto : CryptoFunctions}
  {creds : Credentials} (usersfile usersfile' : LicenseFile)
  (name password signature signcert : string) (intermedium : list string)
  (user : User) (msg : string) :
  register lisbon_fall_back usersfile name password signature signcert
    intermedium = (Ok (Some user, msg), usersfile') ->
  views user = 4 /\
  time user = posix_now lisbon_fall_back + 65 * 60 * 1000000 /\
  time user <> posix_now lisbon_fall_back + 5 * 60 * 1000000.
Proof.
  intros Hr.
  destruct (register_spec lisbon_fall_back usersfile name password signature
              signcert intermedium) as (Hsucc & _).
  destruct (Hsucc _ _ _ Hr) as (_ & Hv & Ht & _).
  rewrite Ht, granted_expiry_lisbon. split; [exact Hv|].
  split; [reflexivity|]. vm_compute. discriminate.
Qed.

Lemma register_before_clocks_go_back_witness :
  exists user,
    @register Plain.crypto Plain.credentials lisbon_fall_back None "alice"
      "secret" "cert-of-alicealicesecret" "cert-of-alice" ["root"%string]
      = (Ok (Some user, ""%string), Some [user]) /\
    time user = 1698544920000000 /\
    licenseValid
      (mkClock (posix_now lisbon_fall_back + 60 * 60 * 1000000) 0
         (mktime lisbon_fall_back))
      (Some [user]) "alice" = true.
Proof.
  eexists. split; [vm_compute; reflexivity|]. split.
  - apply (proj1 (proj2 (register_before_clocks_go_back
                           (crypto := Plain.crypto)
                           (creds := Plain.credentials) None _ "alice"
                           "secret" "cert-of-alicealicesecret" "cert-of-alice"
                           ["root"%string] _ ""%string eq_refl))).
  - vm_compute. reflexivity.
Defined.

(** In the hour that the clocks show twice the miss goes the other way: the
    naive time five minutes ahead is read at the offset of before the change,
    the expiry kept is 55 minutes before the registration, and the license
    fails the validity check from its first instant. *)
Example register_in_repeated_hour :
  exists user,
    @register Plain.crypto Plain.credentials lisbon_repeated_hour None "alice"
      "secret" "cert-of-alicealicesecret" "cert-of-alice" ["root"%string]
      = (Ok (Some user, ""%string), Some [user]) /\
    time user = posix_now lisbon_repeated_hour - 55 * 60 * 1000000 /\
    licenseValid lisbon_repeated_hour (Some [user]) "alice" = false.
Proof.
  eexists. split; [vm_compute; reflexivity|].
  split; vm_compute; reflexivity.
Qed.

(** In a UTC zone the float itself can miss the instant: from March 2242 on
    the seconds take 34 of the 53 bits of a float, the 19 left to the
    fraction are fewer than microseconds need, and the expiry kept here is a
    microsecond late. *)
Example granted_expiry_2242 :
  timestamp utc_2242 (datetime_now utc_2242 + LICENSE_SPAN)
    = posix_now utc_2242 + LICENSE_SPAN + 1.
Proof. vm_compute. reflexivity. Qed.

End RegisterClaims.

(** * Properties of the media server *)

(** Unfolds the state-and-exception monad of the handlers. *)
Ltac run_monad :=
  unfold Server.modify_self, Server.get_self, Server.put_self,
    Server.setResponseCode, Server.addRawHeader, Server.lift, Server.raise,
    Server.try_except;
  unfold mbind, mret, Server.M_bind, Server.M_ret.

Section ServerFacts.
Import Server.
Context {crypto : CryptoFunctions} {codec : Codec} {kx : KeyExchange}
  {lic : LicensesModule}.

(** ** The key [cipher] hands to the encryption *)

Lemma cipher_key_spec (srv : MediaServer) (append : option string)
  (key : option string) :
  cipher_key srv append = Ok key <->
  ((append = None \/ append = Some ""%string) /\ key = shared_key srv) \/
  (exists a k, append = Some a /\ a <> ""%string /\
               shared_key srv = Some k /\ key = Some (k +:+ a)).
Proof.
  unfold cipher_key. split.
  - destruct append as [[|ch a]|].
    + intros [= <-]. left. auto.
    + destruct (shared_key srv) as [k|]; [|discriminate].
      intros [= <-]. right. exists (String ch a), k. repeat split. discriminate.
    + intros [= <-]. left. auto.
  - intros [[[->| ->] ->]|(a & k & -> & Ha & Hk & ->)]; try reflexivity.
    rewrite Hk. destruct a; [contradiction|reflexivity].
Qed.

Lemma cipher_key_sessions (srv : MediaServer) (m : gmap string Session)
  (append : option string) :
  cipher_key (set_sessions m srv) append = cipher_key srv append.
Proof. reflexivity. Qed.

(** ** [cipher], step by step *)

Lemma cipher_Ok (response : string) (append : option string) (w w' : World)
  (cryptogram : string) :
  cipher response append w = (Ok cryptogram, w') <->
  exists key MIC,
    cipher_key (self w) append = Ok key /\
    symetric_encryption key response (CIPHER (self w)) (CIPHER_MODE (self w))
      (DIGEST (self w)) true = Ok cryptogram /\
    create_digest cryptogram (DIGEST (self w)) = Ok MIC /\
    w' = with_MIC MIC w.
Proof.
  unfold cipher. run_monad. split.
  - destruct (cipher_key (self w) append) as [key|e]; [|discriminate].
    destruct (symetric_encryption key response _ _ _ true) as [c|e] eqn:Ec;
      [|discriminate].
    destruct (create_digest c (DIGEST (self w))) as [MIC|e] eqn:Ed;
      [|discriminate].
    intros [= <- <-]. exists key, MIC. auto.
  - intros (key & MIC & -> & -> & -> & ->). reflexivity.
Qed.

Lemma cipher_Raise (response : string) (append : option string) (w w' : World)
  (e : pyexn) :
  cipher response append w = (Raise e, w') -> w' = w.
Proof.
  unfold cipher. run_monad.
  destruct (cipher_key (self w) append) as [key|e1]; [|congruence].
  destruct (symetric_encryption key response _ _ _ true) as [c|e2];
    [|congruence].
  destruct (create_digest c (DIGEST (self w))) as [MIC|e3]; congruence.
Qed.

(** [cipher] never looks into [self.sessions]. *)
Lemma cipher_sessions (response : string) (append : option string)
  (m : gmap string Session) (w : World) :
  cipher response append (with_sessions m w) =
    (fst (cipher response append w),
     with_sessions m (snd (cipher response append w))).
Proof.
  unfold cipher. run_monad. simpl.
  rewrite cipher_key_sessions.
  destruct (cipher_key (self w) append) as [key|e]; [|reflexivity].
  destruct (symetric_encryption key response _ _ _ true) as [c|e];
    [|reflexivity].
  destruct (create_digest c (DIGEST (self w))) as [MIC|e]; reflexivity.
Qed.

(** ** The key exchange *)

Lemma do_public_key_Ok (sessionid : string) (keys : PrivateKey * PublicKey)
  (request : Request) (w : World) (pem : string) (rest : list string)
  (peer : PublicKey) (shared : string) :
  args request !! "public_key"%string = Some (pem :: rest) ->
  load_pem_public_key pem = Ok peer ->
  exchange keys.1 peer = Ok shared ->
  do_public_key sessionid keys request w =
    (Ok (Some (json_dumps
                 (JObj [("public_key"%string, JStr (public_bytes_pem keys.2))]))),
     mkWorld
       (set_sessions
          (<[sessionid := mkSession keys.2 keys.1 shared]> (sessions (self w)))
          (self w))
       (code w) (responseHeaders w ++ [("sessionid"%string, sessionid)])
       (ledger w) (trace w) (disk w)).
Proof.
  intros Ha Hl He. destruct keys as [private_key public_key']. simpl in He.
  unfold do_public_key, args_first. rewrite Ha. run_monad.
  rewrite Hl, He. reflexivity.
Qed.

Lemma do_public_key_fields (sessionid : string)
  (keys : PrivateKey * PublicKey) (request : Request) (w w' : World)
  (r : res (option string)) :
  do_public_key sessionid keys request w = (r, w') ->
  shared_key (self w') = shared_key (self w) /\
  CIPHER (self w') = CIPHER (self w) /\
  DIGEST (self w') = DIGEST (self w) /\
  CIPHER_MODE (self w') = CIPHER_MODE (self w).
Proof.
  destruct keys as [private_key public_key'].
  unfold do_public_key, args_first.
  destruct (args request !! "public_key"%string) as [[|pem rest]|];
    run_monad; try (intros [= <- <-]; auto).
  destruct (load_pem_public_key pem) as [peer|e]; [|intros [= <- <-]; auto].
  destruct (exchange private_key peer) as [shared|e]; intros [= <- <-]; auto.
Qed.

End ServerFacts.

(** * The claims about the secure channel and the sessions *)

Section ChannelClaims.
Import Server.
Context {crypto : CryptoFunctions} {codec : Codec} {kx : KeyExchange}
  {lic : LicensesModule}.

(** C6, as the code has it.  [cipher] returns a cryptogram exactly when the
    encryption and the digest succeed, and then the cryptogram is the
    encryption of the response under the server-wide [shared_key]
    attribute, with the binding bytes appended when some are given and not
    empty, under the server-wide [CIPHER], [CIPHER_MODE] and [DIGEST]; the
    [MIC] header it adds is the digest of the cryptogram under [DIGEST].
    No session record takes part. *)
Theorem cipher_seals_under_server_key (response : string)
  (append : option string) (w w' : World) (cryptogram : string) :
  cipher response append w = (Ok cryptogram, w') <->
  exists key MIC,
    (((append = None \/ append = Some ""%string) /\
      key = shared_key (self w)) \/
     (exists a k, append = Some a /\ a <> ""%string /\
                  shared_key (self w) = Some k /\ key = Some (k +:+ a))) /\
    symetric_encryption key response (CIPHER (self w)) (CIPHER_MODE (self w))
      (DIGEST (self w)) true = Ok cryptogram /\
    create_digest cryptogram (DIGEST (self w)) = Ok MIC /\
    w' = with_MIC MIC w.
Proof.
  rewrite cipher_Ok. split; intros (key & MIC & Hk & Henc & Hmic & Hw);
    exists key, MIC; (split; [|auto]).
  - apply cipher_key_spec. exact Hk.
  - apply cipher_key_spec. exact Hk.
Qed.

(** C10.  Whatever [do_public_key] does, the server-wide [shared_key],
    [CIPHER], [DIGEST] and [CIPHER_MODE] are as before; when the request
    carries a public key that loads and the exchange succeeds, the call
    stores under the session id just generated a record of the new key pair
    and of the secret computed from the client's key, and answers with the
    server's public key; and the outcome of [cipher] is the same whatever
    [self.sessions] holds. *)
Theorem do_public_key_frame (sessionid : string)
  (keys : PrivateKey * PublicKey) (request : Request) (w : World) :
  (forall r w', do_public_key sessionid keys request w = (r, w') ->
      shared_key (self w') = shared_key (self w) /\
      CIPHER (self w') = CIPHER (self w) /\
      DIGEST (self w') = DIGEST (self w) /\
      CIPHER_MODE (self w') = CIPHER_MODE (self w)) /\
  (forall pem rest peer shared,
      args request !! "public_key"%string = Some (pem :: rest) ->
      load_pem_public_key pem = Ok peer ->
      exchange keys.1 peer = Ok shared ->
      exists body w',
        do_public_key sessionid keys request w = (Ok (Some body), w') /\
        sessions (self w') =
          <[sessionid := mkSession keys.2 keys.1 shared]> (sessions (self w))) /\
  (forall response append m,
      cipher_key (set_sessions m (self w)) append = cipher_key (self w) append /\
      cipher response append (with_sessions m w) =
        (fst (cipher response append w),
         with_sessions m (snd (cipher response append w)))).
Proof.
  split; [|split].
  - intros r w' Hd. exact (do_public_key_fields _ _ _ _ _ _ Hd).
  - intros pem rest peer shared Ha Hl He.
    eexists _, _. split;
      [exact (do_public_key_Ok _ _ _ w _ _ _ _ Ha Hl He)|reflexivity].
  - intros response append m. split;
      [apply cipher_key_sessions|apply cipher_sessions].
Qed.

(** A value that is not UTF-8 stops the negotiation where it is decoded: an
    undecodable cipher leaves the server as it was. *)
Lemma process_negotiation_undecodable (request : Request) (w : World)
  (c : string) (rc : list string) :
  args request !! "cipher"%string = Some (c :: rc) ->
  utf8_valid c = false ->
  process_negotiation request w = (Raise UnicodeDecodeError, w).
Proof.
  intros Hc Hu. unfold process_negotiation, args_first, decode_utf8.
  rewrite Hc. run_monad. rewrite Hu. reflexivity.
Qed.

(** C7, as the code has it.  Whatever the three values a negotiation
    request carries, in the catalogue or not, [process_negotiation] accepts
    them as long as each can be decoded as UTF-8: it records them in the
    server-wide [CIPHER], [DIGEST] and [CIPHER_MODE] and changes nothing
    else, the sessions included.  The one refusal is that of the decoder: it
    raises [UnicodeDecodeError] when one of the three is not UTF-8. *)
Theorem process_negotiation_records_any_suite (request : Request) (w : World)
  (c d m : string) (rc rd rm : list string) :
  args request !! "cipher"%string = Some (c :: rc) ->
  args request !! "digest"%string = Some (d :: rd) ->
  args request !! "cipher_mode"%string = Some (m :: rm) ->
  (utf8_valid c = true -> utf8_valid d = true -> utf8_valid m = true ->
   process_negotiation request w =
     (Ok None,
      mkWorld
        (mkServer (parameters (self w)) (shared_key (self w)) (Some c) (Some d)
           (Some m) (KEY (self w)) (sessions (self w)) (username (self w)))
        (code w) (responseHeaders w) (ledger w) (trace w) (disk w))) /\
  (utf8_valid c && utf8_valid d && utf8_valid m = false ->
   fst (process_negotiation request w) = Raise UnicodeDecodeError).
Proof.
  intros Hc Hd Hm. unfold process_negotiation, args_first, decode_utf8.
  rewrite Hc, Hd, Hm. run_monad. split.
  - intros Uc Ud Um. rewrite Uc. simpl. rewrite Ud. simpl. rewrite Um.
    reflexivity.
  - destruct (utf8_valid c); [|reflexivity]. simpl.
    destruct (utf8_valid d); [|reflexivity]. simpl.
    destruct (utf8_valid m); [discriminate|reflexivity].
Qed.

End ChannelClaims.

Section ChannelExamples.
Import Server Scenario.
#[local] Existing Instances Plain.crypto Plain.codec Plain.dh.

Lemma cipher_seals_under_server_key_witness :
  cipher "hello" (Some "tag"%string)
    (world negotiated None ∅)
  = (Ok "AES-CBC<Ktag>hello"%string,
     with_MIC "SHA512(AES-CBC<Ktag>hello)" (world negotiated None ∅)).
Proof.
  apply (proj2 (cipher_seals_under_server_key "hello" (Some "tag"%string) (world negotiated None ∅)
                  (with_MIC "SHA512(AES-CBC<Ktag>hello)"
                     (world negotiated None ∅))
                  "AES-CBC<Ktag>hello")).
  exists (Some "Ktag"%string), "SHA512(AES-CBC<Ktag>hello)"%string.
  split; [|repeat split].
  right. exists "tag"%string, "K"%string. repeat split. discriminate.
Defined.

(** C6, as stated, fails: after a key exchange the session holds the secret
    ["2"], yet the key [cipher] would hand to the encryption is [None], and
    with binding bytes the key cannot even be formed. *)
Lemma cipher_ignores_session_secret :
  let w' := snd (do_public_key (kx := Plain.dh) "sid-1" (6, 8)
                   (publickey "19") fresh) in
  session_shared_key <$> (sessions (self w') !! "sid-1"%string)
    = Some "2"%string /\
  cipher_key (self w') None = Ok None /\
  cipher_key (self w') None <> Ok (Some "2"%string) /\
  cipher_key (self w') (Some "7"%string) = Raise TypeError.
Proof.
  repeat split; try (vm_compute; reflexivity). vm_compute. discriminate.
Qed.

Lemma do_public_key_frame_witness :
  exists body w',
    do_public_key (kx := Plain.dh) "sid-1" (6, 8) (publickey "19") fresh
      = (Ok (Some body), w') /\
    sessions (self w') = <["sid-1"%string := mkSession 8 6 "2"]> ∅ /\
    shared_key (self w') = None.
Proof.
  destruct (do_public_key_frame (kx := Plain.dh) "sid-1" (6, 8) (publickey "19") fresh) as (Hframe & Hstore & _).
  destruct (Hstore "19"%string [] 19 "2"%string)
    as (body & w' & Hrun & Hsessions);
    [vm_compute; reflexivity|vm_compute; reflexivity|vm_compute; reflexivity|].
  exists body, w'. split; [exact Hrun|]. split; [exact Hsessions|].
  destruct (Hframe _ _ Hrun) as (Hkey & _). exact Hkey.
Defined.

Lemma process_negotiation_records_any_suite_witness :
  process_negotiation (suite "AES" "SHA512" "CBC") fresh
  = (Ok None,
     world (mkServer "PEM" None (Some "AES"%string) (Some "SHA512"%string)
              (Some "CBC"%string) None ∅ None) None ∅) /\
  fst (process_negotiation
         (suite "AES" (String "255"%char "SHA512") "CBC") fresh)
  = Raise UnicodeDecodeError.
Proof.
  split.
  - apply (proj1 (process_negotiation_records_any_suite
                    (suite "AES" "SHA512" "CBC") fresh
                    "AES" "SHA512" "CBC" [] [] [] eq_refl eq_refl eq_refl));
      reflexivity.
  - apply (proj2 (process_negotiation_records_any_suite
                    (suite "AES" (String "255"%char "SHA512") "CBC") fresh
                    "AES" (String "255"%char "SHA512") "CBC" [] [] []
                    eq_refl eq_refl eq_refl)).
    reflexivity.
Defined.

(** A cipher that is not UTF-8, here the one byte 0xFF, is answered with
    code 501 and an empty body, and the server records nothing. *)
Example negotiation_refuses_undecodable :
  let r := render_POST (kx := Plain.dh) "sid-1" (6, 8)
             (suite (String "255"%char "") "SHA512" "CBC") fresh in
  fst r = Ok (Some ""%string) /\
  code (snd r) = 501 /\
  CIPHER (self (snd r)) = None /\
  DIGEST (self (snd r)) = None /\
  CIPHER_MODE (self (snd r)) = None.
Proof. repeat split; vm_compute; reflexivity. Qed.

(** C7, as stated, fails: a triple of which no member is in the catalogue
    is accepted, with response code 200, and becomes the server's suite;
    no session records it. *)
Lemma negotiation_accepts_unknown_suite :
  let r := render_POST (kx := Plain.dh) "sid-1" (6, 8)
             (suite "ROT13" "MD5" "ECB") fresh in
  ~ In "ROT13"%string protocols_cipher /\
  ~ In "MD5"%string protocols_digests /\
  ~ In "ECB"%string protocols_cipher_mode /\
  fst r = Ok None /\
  code (snd r) = 200 /\
  CIPHER (self (snd r)) = Some "ROT13"%string /\
  DIGEST (self (snd r)) = Some "MD5"%string /\
  CIPHER_MODE (self (snd r)) = Some "ECB"%string /\
  sessions (self (snd r)) = ∅.
Proof.
  split; [simpl; intuition discriminate|].
  split; [simpl; intuition discriminate|].
  split; [simpl; intuition discriminate|].
  repeat split; vm_compute; reflexivity.
Qed.

End ChannelExamples.

(** * Properties of the gateway: listing and chunked download *)

Section GatewayFacts.
Import Server.
Context {crypto : CryptoFunctions} {codec : Codec} {kx : KeyExchange}
  {lic : LicensesModule}.

(** ** The number of chunks *)

Lemma ceil_div_spec (a b n : Z) : 0 < b -> (n < ceil_div a b <-> n * b < a).
Proof.
  intros Hb. unfold ceil_div.
  pose proof (Z.div_mod (- a) b ltac:(lia)) as Hdm.
  pose proof (Z.mod_pos_bound (- a) b Hb) as Hm.
  split; intros Hlt; nia.
Qed.

Lemma chunks_of_known_item : ceil_div 3407202 CHUNK_SIZE = 832.
Proof. reflexivity. Qed.

(** The list [do_list] serialises for [CATALOG] announces 832 chunks. *)
Lemma listing_of_catalog :
  media_summary <$> CATALOG =
    [ JObj [ ("id"%string, JStr Scenario.media_id);
             ("name"%string, JStr (name sunny_afternoon));
             ("description"%string, JStr (description sunny_afternoon));
             ("chunks"%string, JInt 832);
             ("duration"%string, JInt 213) ] ].
Proof. reflexivity. Qed.

(** ** The [try] block of [do_download] *)

Lemma after_license_update_disk (media_item : MediaItem) (w : World) :
  disk (after_license_update media_item w) = disk w.
Proof.
  unfold after_license_update, call_update_license.
  destruct (username (self w)) as [user|]; [|reflexivity].
  destruct (update_license user (duration media_item) (ledger w)); reflexivity.
Qed.



Lemma after_license_update_reply (media_item : MediaItem) (w : World) :
  self (after_license_update media_item w) = self w /\
  code (after_license_update media_item w) = code w /\
  responseHeaders (after_license_update media_item w) = responseHeaders w.
Proof.
  unfold after_license_update, call_update_license.
  destruct (username (self w)) as [user|]; [|auto].
  destruct (update_license user (duration media_item) (ledger w)); auto.
Qed.

(** The three outcomes of the block. *)
Lemma check_chunk_spec (media_item : MediaItem) (raw : string) (w : World) :
  check_chunk media_item raw w =
    match py_int raw with
    | Raise _ => (Ok (ChunkBytes raw, false), w)
    | Ok n =>
        if (0 <=? n) && (n <? ceil_div (file_size media_item) CHUNK_SIZE)
        then (Ok (ChunkInt n, true), after_license_update media_item w)
        else (Ok (ChunkInt n, false), w)
    end.
Proof.
  unfold check_chunk, after_license_update.
  destruct (py_int raw) as [n|e]; [|reflexivity].
  destruct ((0 <=? n) && (n <? ceil_div (file_size media_item) CHUNK_SIZE));
    [|reflexivity].
  destruct (username (self w)) as [user|]; reflexivity.
Qed.

(** The bounds check accepts exactly the indices from 0 to the number of
    chunks less one. *)
Lemma check_chunk_accepts (media_item : MediaItem) (raw : string) (n : Z)
  (w : World) :
  py_int raw = Ok n ->
  (snd <$> match fst (check_chunk media_item raw w) with
           | Ok r => Some r
           | Raise _ => None
           end) = Some true <->
  0 <= n < ceil_div (file_size media_item) CHUNK_SIZE.
Proof.
  intros Hn. rewrite check_chunk_spec, Hn.
  destruct (Z.leb_spec 0 n), (Z.ltb_spec n (ceil_div (file_size media_item) CHUNK_SIZE));
    simpl; split; try lia; try discriminate; reflexivity.
Qed.

(** ** [do_download] on a known media item, case by case *)

Lemma do_download_in_range (catalog : list (string * MediaItem))
  (request : Request) (w : World) (media_id : string) (rest_id : list string)
  (media_item : MediaItem) (raw : string) (n : Z) (content : string) :
  args request !! "id"%string = Some (media_id :: rest_id) ->
  catalog_get catalog media_id = Some media_item ->
  chunk_argument request raw ->
  py_int raw = Ok n ->
  0 <= n < ceil_div (file_size media_item) CHUNK_SIZE ->
  disk w !! path_join CATALOG_BASE (file_name media_item) = Some content ->
  do_download catalog request w =
    cipher
      (chunk_message media_id n
         (String.substring (Z.to_nat (n * CHUNK_SIZE)) (Z.to_nat CHUNK_SIZE)
            content))
      (Some (zeros (Z.to_nat n)))
      (after_read (path_join CATALOG_BASE (file_name media_item))
         (n * CHUNK_SIZE) (after_license_update media_item w)).
Proof.
  intros Hid Hcat Hraw Hint Hrange Hdisk.
  unfold do_download, args_get_first. rewrite Hid. run_monad. rewrite Hcat.
  assert (Hchunk :
            match args request !! "chunk"%string with
            | None => (Ok "0"%string, w)
            | Some [] => (Raise IndexError, w)
            | Some (v :: _) => (Ok (id v), w)
            end = (Ok raw, w)).
  { destruct Hraw as [[-> ->]|[rest ->]]; reflexivity. }
  destruct (args request !! "chunk"%string) as [[|v rest]|];
    try discriminate; injection Hchunk as ->; unfold id;
    rewrite check_chunk_spec, Hint;
    (replace ((0 <=? n) && (n <? ceil_div (file_size media_item) CHUNK_SIZE))
       with true by (symmetry; apply andb_true_iff; split; lia));
    simpl; unfold read_file; rewrite after_license_update_disk, Hdisk;
    unfold seal_with_chunk, py_bytes; run_monad;
    (replace (n <? 0) with false by (symmetry; apply Z.ltb_ge; lia));
    unfold after_read; rewrite ?after_license_update_disk; reflexivity.
Qed.

Lemma do_download_out_of_range (catalog : list (string * MediaItem))
  (request : Request) (w : World) (media_id : string) (rest_id : list string)
  (media_item : MediaItem) (raw : string) (n : Z) :
  args request !! "id"%string = Some (media_id :: rest_id) ->
  catalog_get catalog media_id = Some media_item ->
  chunk_argument request raw ->
  py_int raw = Ok n ->
  ~ (0 <= n < ceil_div (file_size media_item) CHUNK_SIZE) ->
  do_download catalog request w =
    seal_with_chunk (error_message "invalid chunk id") (ChunkInt n)
      (answering 400 "application/json" w).
Proof.
  intros Hid Hcat Hraw Hint Hrange.
  unfold do_download, args_get_first. rewrite Hid. run_monad. rewrite Hcat.
  assert (Hchunk :
            match args request !! "chunk"%string with
            | None => (Ok "0"%string, w)
            | Some [] => (Raise IndexError, w)
            | Some (v :: _) => (Ok (id v), w)
            end = (Ok raw, w)).
  { destruct Hraw as [[-> ->]|[rest ->]]; reflexivity. }
  destruct (args request !! "chunk"%string) as [[|v rest]|];
    try discriminate; injection Hchunk as ->; unfold id;
    rewrite check_chunk_spec, Hint;
    (replace ((0 <=? n) && (n <? ceil_div (file_size media_item) CHUNK_SIZE))
       with false by (symmetry; apply andb_false_iff; lia));
    reflexivity.
Qed.

(** An index past the last chunk, of a size that [bytes] can allocate, is
    answered with the binding bytes being [n] zero bytes: with code 400 and
    the sealed error message when [cipher] returns, which takes a server
    that holds a key. *)
Lemma do_download_past_end (catalog : list (string * MediaItem))
  (request : Request) (w : World) (media_id : string) (rest_id : list string)
  (media_item : MediaItem) (raw : string) (n : Z) :
  args request !! "id"%string = Some (media_id :: rest_id) ->
  catalog_get catalog media_id = Some media_item ->
  chunk_argument request raw ->
  py_int raw = Ok n ->
  0 <= n -> ceil_div (file_size media_item) CHUNK_SIZE <= n ->
  do_download catalog request w =
    cipher (error_message "invalid chunk id") (Some (zeros (Z.to_nat n)))
      (answering 400 "application/json" w).
Proof.
  intros Hid Hcat Hraw Hint Hn Hge.
  rewrite (do_download_out_of_range _ _ w _ _ _ _ _ Hid Hcat Hraw Hint)
    by lia.
  unfold seal_with_chunk, py_bytes. run_monad.
  replace (n <? 0) with false by (symmetry; apply Z.ltb_ge; lia).
  reflexivity.
Qed.

(** A negative index makes [bytes(chunk_id)] raise once code 400 has been
    set: no message is sealed. *)
Lemma do_download_negative (catalog : list (string * MediaItem))
  (request : Request) (w : World) (media_id : string) (rest_id : list string)
  (media_item : MediaItem) (raw : string) (n : Z) :
  args request !! "id"%string = Some (media_id :: rest_id) ->
  catalog_get catalog media_id = Some media_item ->
  chunk_argument request raw ->
  py_int raw = Ok n ->
  n < 0 ->
  do_download catalog request w =
    (Raise ValueError, answering 400 "application/json" w).
Proof.
  intros Hid Hcat Hraw Hint Hn.
  rewrite (do_download_out_of_range _ _ w _ _ _ _ _ Hid Hcat Hraw Hint)
    by lia.
  unfold seal_with_chunk, py_bytes. run_monad.
  replace (n <? 0) with true by (symmetry; apply Z.ltb_lt; lia).
  reflexivity.
Qed.

(** ** What the handlers return has been sealed *)

Lemma seal_with_chunk_sealed (message : string) (chunk_id : chunk_var)
  (w w' : World) (body : string) :
  seal_with_chunk message chunk_id w = (Ok body, w') -> sealed body w'.
Proof.
  unfold seal_with_chunk. run_monad.
  destruct (py_bytes chunk_id) as [append|e]; [|discriminate].
  intros Hc. exists message, (Some append), w. exact Hc.
Qed.

Lemma do_list_sealed (catalog : list (string * MediaItem)) (request : Request)
  (w w' : World) (body : string) :
  do_list catalog request w = (Ok body, w') -> sealed body w'.
Proof.
  unfold do_list. run_monad. intros Hc. eexists _, _, _. exact Hc.
Qed.

Lemma do_download_sealed (catalog : list (string * MediaItem))
  (request : Request) (w w' : World) (body : string) :
  do_download catalog request w = (Ok body, w') -> sealed body w'.
Proof.
  unfold do_download, args_get_first.
  destruct (args request !! "id"%string) as [[|media_id rest_id]|]; run_monad;
    [discriminate| |apply seal_with_chunk_sealed].
  destruct (catalog_get catalog media_id) as [media_item|];
    [|apply seal_with_chunk_sealed].
  destruct (args request !! "chunk"%string) as [[|v rest]|]; run_monad;
    try discriminate; unfold id; rewrite check_chunk_spec;
    (destruct (py_int _) as [n|e];
     [destruct ((0 <=? n) && (n <? ceil_div (file_size media_item) CHUNK_SIZE))|];
     simpl; try apply seal_with_chunk_sealed;
     unfold read_file; destruct (disk _ !! _); simpl;
     [apply seal_with_chunk_sealed|discriminate]).
Qed.

(** ** The dispatch of [render_GET] on the protected paths *)

Lemma render_GET_list (catalog : list (string * MediaItem)) (request : Request)
  (w : World) :
  path request = "/api/list"%string ->
  render_GET catalog request w =
    match do_list catalog request w with
    | (Ok body, w') => (Ok body, w')
    | (Raise _, w') => (Ok ""%string, answering 500 "text/plain" w')
    end.
Proof.
  intros Hp. unfold render_GET, try_except. rewrite Hp.
  change (String.eqb "/api/list" "/api/parameters") with false.
  change (String.eqb "/api/list" "/api/protocols") with false.
  change (String.eqb "/api/list" "/api/list") with true. cbv iota.
  destruct (do_list catalog request w) as [[body|e] w1]; reflexivity.
Qed.

Lemma render_GET_download (catalog : list (string * MediaItem))
  (request : Request) (w : World) :
  path request = "/api/download"%string ->
  render_GET catalog request w =
    match do_download catalog request w with
    | (Ok body, w') => (Ok body, w')
    | (Raise _, w') => (Ok ""%string, answering 500 "text/plain" w')
    end.
Proof.
  intros Hp. unfold render_GET, try_except. rewrite Hp.
  change (String.eqb "/api/download" "/api/parameters") with false.
  change (String.eqb "/api/download" "/api/protocols") with false.
  change (String.eqb "/api/download" "/api/list") with false.
  change (String.eqb "/api/download" "/api/download") with true. cbv iota.
  destruct (do_download catalog request w) as [[body|e] w1]; reflexivity.
Qed.

End GatewayFacts.

(** * The claims about the gateway *)

Section GatewayClaims.
Import Server.
Context {crypto : CryptoFunctions} {codec : Codec} {kx : KeyExchange}
  {lic : LicensesModule}.


(** C4, at a negative index.  The bounds check rejects chunk [-1] of the
    known item and code 400 is set, but building the binding bytes from the
    negative index raises, so that [render_GET] answers with code 500 and an
    empty body instead of the invalid-chunk error. *)
Theorem negative_chunk_index_reply (w : World) :
  render_GET CATALOG
    (Scenario.download [ ("id"%string, [Scenario.media_id]);
                         ("chunk"%string, ["-1"%string]) ]) w
  = (Ok ""%string,
     answering 500 "text/plain" (answering 400 "application/json" w)).
Proof.
  rewrite render_GET_download by reflexivity.
  erewrite (do_download_negative CATALOG _ w Scenario.media_id []
              _ "-1" (-1));
    [reflexivity|vm_compute; reflexivity|reflexivity| |reflexivity|lia].
  right. exists []. vm_compute. reflexivity.
Qed.

(** C8, as the code has it.  On the two protected paths [render_GET] always
    returns a body, and that body either comes out of [cipher], or is empty
    and goes out with code 500 after the handler has raised. *)
Theorem protected_reply_sealed_or_empty (catalog : list (string * MediaItem))
  (request : Request) (w : World) :
  path request = "/api/list"%string \/ path request = "/api/download"%string ->
  exists body w',
    render_GET catalog request w = (Ok body, w') /\
    (sealed body w' \/
     (body = ""%string /\ exists w1, w' = answering 500 "text/plain" w1)).
Proof.
  intros [Hp|Hp];
    [rewrite (render_GET_list _ _ _ Hp)|rewrite (render_GET_download _ _ _ Hp)].
  - destruct (do_list catalog request w) as [[body|e] w1] eqn:E.
    + exists body, w1. split; [reflexivity|]. left.
      exact (do_list_sealed _ _ _ _ _ E).
    + eexists _, _. split; [reflexivity|]. right. split; [reflexivity|].
      exists w1. reflexivity.
  - destruct (do_download catalog request w) as [[body|e] w1] eqn:E.
    + exists body, w1. split; [reflexivity|]. left.
      exact (do_download_sealed _ _ _ _ _ E).
    + eexists _, _. split; [reflexivity|]. right. split; [reflexivity|].
      exists w1. reflexivity.
Qed.

(** C9.  A download request without a chunk argument is handled exactly as
    the same request with chunk [0]; and when the media id is known, the item
    is not empty and its file is there, it is the first [CHUNK_SIZE] bytes of
    the file that are handed to [cipher], with no binding bytes. *)
Theorem do_download_default_chunk (catalog : list (string * MediaItem))
  (request : Request) (w : World) :
  args request !! "chunk"%string = None ->
  do_download catalog request w =
    do_download catalog
      (mkRequest (path request) (<["chunk"%string := ["0"%string]]> (args request)))
      w /\
  (forall media_id rest_id media_item content,
      args request !! "id"%string = Some (media_id :: rest_id) ->
      catalog_get catalog media_id = Some media_item ->
      0 < file_size media_item ->
      disk w !! path_join CATALOG_BASE (file_name media_item) = Some content ->
      do_download catalog request w =
        cipher
          (chunk_message media_id 0
             (String.substring 0 (Z.to_nat CHUNK_SIZE) content))
          (Some ""%string)
          (after_read (path_join CATALOG_BASE (file_name media_item)) 0
             (after_license_update media_item w))).
Proof.
  intros Hnone. split.
  - unfold do_download, args_get_first. simpl args.
    rewrite (lookup_insert_ne _ "chunk"%string "id"%string)
      by (intros Heq; discriminate Heq).
    rewrite lookup_insert_eq, Hnone. reflexivity.
  - intros media_id rest_id media_item content Hid Hcat Hsize Hdisk.
    apply (do_download_in_range catalog request w media_id rest_id media_item
             "0" 0 content Hid Hcat); [left; auto|reflexivity| |exact Hdisk].
    split; [lia|]. apply ceil_div_spec; [reflexivity|lia].
Qed.

End GatewayClaims.

Section GatewayExamples.
Import Server Scenario.
#[local] Existing Instances Plain.crypto Plain.codec Plain.dh.



Lemma protected_reply_sealed_or_empty_witness :
  exists body w',
    render_GET CATALOG
      (download [("id"%string, [media_id]); ("chunk"%string, ["0"%string])])
      (world negotiated (ledger_of 4 7) assets) = (Ok body, w') /\
    (sealed body w' \/
     (body = ""%string /\ exists w1, w' = answering 500 "text/plain" w1)).
Proof.
  apply (protected_reply_sealed_or_empty CATALOG
           (download [("id"%string, [media_id]); ("chunk"%string, ["0"%string])])
           (world negotiated (ledger_of 4 7) assets)).
  right. reflexivity.
Defined.

(** C8, as stated, fails: a download request without a media id, sent to a
    server that holds a key and a suite, is answered with code 500 and an
    empty body that never went through [cipher]; the error message built for
    it is not sent at all. *)
Lemma missing_id_reply_is_not_sealed :
  let r := render_GET CATALOG (download []) (world negotiated None assets) in
  fst r = Ok ""%string /\
  code (snd r) = 500 /\
  responseHeaders (snd r) =
    [ ("content-type"%string, "application/json"%string);
      ("content-type"%string, "text/plain"%string) ] /\
  ~ sealed "" (snd r).
Proof.
  assert (Hh : responseHeaders
                 (snd (render_GET CATALOG (download [])
                         (world negotiated None assets))) =
               [ ("content-type"%string, "application/json"%string) ] ++
               [ ("content-type"%string, "text/plain"%string) ])
    by (vm_compute; reflexivity).
  split; [vm_compute; reflexivity|]. split; [vm_compute; reflexivity|].
  split; [exact Hh|].
  intros (response & append & w0 & Hc).
  apply cipher_Ok in Hc as (key & MIC & _ & _ & _ & Hw).
  rewrite Hw in Hh. unfold with_MIC in Hh. simpl responseHeaders in Hh.
  apply app_inj_tail in Hh as [_ Hh]. discriminate Hh.
Qed.

Lemma do_download_default_chunk_witness :
  do_download CATALOG (download [("id"%string, [media_id])])
    (world negotiated (ledger_of 4 7) assets)
  = do_download CATALOG
      (mkRequest "/api/download"
         (<["chunk"%string := ["0"%string]]>
            (list_to_map [("id"%string, [media_id])])))
      (world negotiated (ledger_of 4 7) assets).
Proof.
  apply (do_download_default_chunk CATALOG (download [("id"%string, [media_id])])
           (world negotiated (ledger_of 4 7) assets)).
  vm_compute. reflexivity.
Defined.

End GatewayExamples.

(** * Further properties of the license ledger *)

Section LedgerMore.
Import Licenses.

(** ** Searching, again *)

Lemma find_user_None (users : list User) (name : string) (i : nat) :
  find_user users name i = None <-> name ∉ username <$> users.
Proof.
  revert i. induction users as [|v rest IH]; intros i; cbn [find_user].
  - split; [intros _ Hin; inversion Hin|reflexivity].
  - rewrite fmap_cons, not_elem_of_cons.
    destruct (String.eqb_spec (username v) name) as [Heq|Hne].
    + split; [discriminate|]. intros [Hnin _]. exfalso. apply Hnin.
      symmetry. exact Heq.
    + rewrite IH. split; [|tauto].
      intros Hn. split; [|exact Hn]. intros E. apply Hne. symmetry. exact E.
Qed.

Lemma find_user_shift (users : list User) (name : string) (i : nat) :
  find_user users name (S i) =
    (fun r => (r.1, S r.2)) <$> find_user users name i.
Proof.
  revert i. induction users as [|v rest IH]; intros i; simpl; [reflexivity|].
  destruct (String.eqb (username v) name); [reflexivity|]. apply IH.
Qed.

Lemma find_user_app_found (users : list User) (last_user : User) (name : string)
  (i : nat) (r : User * nat) :
  find_user users name i = Some r ->
  find_user (users ++ [last_user]) name i = Some r.
Proof.
  revert i. induction users as [|v rest IH]; intros i; simpl; [discriminate|].
  destruct (String.eqb (username v) name); [auto|]. apply IH.
Qed.

Lemma find_user_app_new (users : list User) (last_user : User) (name : string)
  (i : nat) :
  find_user users name i = None ->
  find_user (users ++ [last_user]) name i =
    if String.eqb (username last_user) name
    then Some (last_user, (i + length users)%nat) else None.
Proof.
  revert i. induction users as [|v rest IH]; intros i; simpl.
  - intros _. replace (i + 0)%nat with i by lia. reflexivity.
  - destruct (String.eqb (username v) name); [discriminate|].
    intros Hn. rewrite (IH _ Hn). replace (S i + length rest)%nat
      with (i + S (length rest))%nat by lia. reflexivity.
Qed.

(** Replacing a record by one of the same name does not change what the
    search finds for another name. *)
Lemma find_user_insert_other (users : list User) (name other : string)
  (i j : nat) (u u' : User) :
  users !! j = Some u -> username u = name -> username u' = name ->
  other <> name ->
  find_user (<[j := u']> users) other i = find_user users other i.
Proof.
  revert i j. induction users as [|v rest IH]; intros i j Hl Hu Hu' Hne;
    [discriminate|].
  destruct j as [|j]; simpl in *.
  - inversion Hl; subst v.
    destruct (String.eqb_spec (username u') other) as [E|_]; [congruence|].
    destruct (String.eqb_spec (username u) other) as [E|_]; [congruence|].
    reflexivity.
  - destruct (String.eqb (username v) other); [reflexivity|].
    apply (IH _ _ Hl Hu Hu' Hne).
Qed.

Lemma usernames_insert (users : list User) (j : nat) (u u' : User) :
  users !! j = Some u -> username u' = username u ->
  username <$> <[j := u']> users = username <$> users.
Proof.
  intros Hl Hu. rewrite list_fmap_insert, Hu.
  apply list_insert_id. rewrite list_lookup_fmap, Hl. reflexivity.
Qed.

Lemma updated_username (c : Clock) (renew view : bool) (u : User) :
  username (updated c renew view u) = username u.
Proof. unfold updated. destruct renew, view; reflexivity. Qed.

Lemma updateLicense_found (c : Clock) (usersfile : LicenseFile) (name : string)
  (renew view : bool) (u : User) (j : nat) :
  name <> ""%string ->
  find_user (load_users usersfile) name 0 = Some (u, j) ->
  updateLicense c usersfile name renew view =
    (Some (updated c renew view u),
     Some (<[j := updated c renew view u]> (load_users usersfile))).
Proof.
  intros Hne Hf. unfold updateLicense.
  destruct (String.eqb_spec name "") as [E|_]; [contradiction|].
  rewrite Hf. reflexivity.
Qed.

End LedgerMore.

Section LedgerExtras.
Import Licenses.

Lemma updateLicense_absent (c : Clock) (usersfile : LicenseFile)
  (name : string) (renew view : bool) :
  find_user (load_users usersfile) name 0 = None ->
  updateLicense c usersfile name renew view = (None, usersfile).
Proof.
  intros Hf. unfold updateLicense. rewrite Hf.
  destruct (String.eqb name ""); reflexivity.
Qed.

(** X1.  For the empty username, and for a username that has no record,
    [updateLicense] returns [None] and does not write the file, whatever
    [renew] and [view]. *)
Theorem updateLicense_unknown (c : Clock) (usersfile : LicenseFile)
  (name : string) (renew view : bool) :
  name = ""%string \/ getLicense usersfile name = None ->
  updateLicense c usersfile name renew view = (None, usersfile).
Proof.
  intros [-> | Hg]; [reflexivity|]. apply updateLicense_absent.
  unfold getLicense in Hg.
  destruct (find_user (load_users usersfile) name 0) as [[u j]|];
    [discriminate|reflexivity].
Qed.

Lemma updateLicense_unknown_witness :
  updateLicense Scenario.noon (Scenario.ledger_of 4 7) "bob" false true
    = (None, Scenario.ledger_of 4 7) /\
  updateLicense Scenario.noon (Some [Scenario.alice 4 7; mkUser "" ∅ 4 7 ""])
    "" true false
    = (None, Some [Scenario.alice 4 7; mkUser "" ∅ 4 7 ""]).
Proof.
  split.
  - apply (updateLicense_unknown Scenario.noon (Scenario.ledger_of 4 7) "bob"
             false true). right. reflexivity.
  - apply (updateLicense_unknown Scenario.noon
             (Some [Scenario.alice 4 7; mkUser "" ∅ 4 7 ""]) "" true false).
    left. reflexivity.
Defined.

(** X2.  [updateLicense] keeps the usernames of the file, in their order, and
    leaves the license of every other username as it was. *)
Theorem updateLicense_frame (c : Clock) (usersfile : LicenseFile)
  (name : string) (renew view : bool) :
  username <$> load_users (snd (updateLicense c usersfile name renew view))
    = username <$> load_users usersfile /\
  (forall other, other <> name ->
     getLicense (snd (updateLicense c usersfile name renew view)) other
       = getLicense usersfile other).
Proof.
  destruct (String.eqb_spec name "") as [->|Hne]; [split; reflexivity|].
  destruct (find_user (load_users usersfile) name 0) as [[u j]|] eqn:Hf.
  - rewrite (updateLicense_found c _ _ renew view _ _ Hne Hf). simpl snd.
    simpl load_users.
    destruct (find_user_sound _ _ _ _ _ Hf) as (Hu & _ & Hl).
    replace (j - 0)%nat with j in Hl by lia. split.
    + apply (usernames_insert _ _ u); [exact Hl|apply updated_username].
    + intros other Ho. unfold getLicense. simpl load_users.
      rewrite (find_user_insert_other _ name other 0 j u); auto.
      rewrite updated_username. exact Hu.
  - rewrite (updateLicense_absent _ _ _ _ _ Hf). split; reflexivity.
Qed.

Lemma updateLicense_frame_witness :
  getLicense
    (snd (updateLicense Scenario.noon
            (Some [Scenario.alice 4 7; mkUser "bob" ∅ 2 9 "cert-of-bob"])
            "alice" false true)) "bob"
  = Some (mkUser "bob" ∅ 2 9 "cert-of-bob").
Proof.
  rewrite (proj2 (updateLicense_frame Scenario.noon
                    (Some [Scenario.alice 4 7; mkUser "bob" ∅ 2 9 "cert-of-bob"])
                    "alice" false true) "bob") by discriminate.
  reflexivity.
Defined.

Lemma getLicense_updated (c : Clock) (usersfile : LicenseFile) (name : string)
  (renew view : bool) (u : User) :
  name <> ""%string ->
  getLicense usersfile name = Some u ->
  getLicense (snd (updateLicense c usersfile name renew view)) name
    = Some (updated c renew view u).
Proof.
  intros Hne Hg. apply getLicense_Some in Hg as [j Hf].
  rewrite (updateLicense_found c _ _ renew view _ _ Hne Hf). simpl snd.
  unfold getLicense. simpl load_users.
  destruct (find_user_sound _ _ _ _ _ Hf) as (Hu & _ & _).
  replace j with (j - 0)%nat at 1 by lia.
  erewrite find_user_insert; [reflexivity|exact Hf|].
  rewrite updated_username. exact Hu.
Qed.

(** A license that holds 4 views passes the check at [c'] exactly when the
    number kept as its expiry is not zero and the local reading of [c'] is not
    after the UTC reading of that number. *)
Lemma granted_license_valid (c' : Clock) (usersfile : LicenseFile)
  (name : string) (u : User) :
  getLicense usersfile name = Some u ->
  views u = 4 ->
  (licenseValid c' usersfile name = true <->
   time u <> 0 /\ datetime_now c' <= time u).
Proof.
  intros Hg Hv. rewrite licenseValid_spec. unfold utcfromtimestamp.
  split.
  - intros (u' & Hg' & _ & Hnz & Hle). rewrite Hg in Hg'.
    inversion Hg'; subst u'. split; assumption.
  - intros [Hnz Hle]. exists u. repeat split; try assumption; lia.
Qed.

(** X3.  Renewal works from any state of the record, also when [view] is
    passed with it: it sets the counter to 4 and keeps as the expiry the
    number [(now() + LICENSE_SPAN).timestamp()] of the call.  The renewed
    license then passes the validity check at a clock reading [c'] exactly
    when that number is not zero and the local time of [c'] is not after its
    UTC reading.  Where the number is the instant five minutes after the
    call, as it is when the offset of the zone does not change in those five
    minutes and the float holds the instant exactly, a server in a UTC zone
    finds the license valid up to that instant and no longer. *)
Theorem renew_restores_license (c c' : Clock) (usersfile : LicenseFile)
  (name : string) (u : User) (view : bool) :
  name <> ""%string ->
  getLicense usersfile name = Some u ->
  let expiry := timestamp c (datetime_now c + LICENSE_SPAN) in
  let usersfile' := snd (updateLicense c usersfile name true view) in
  getLicense usersfile' name
    = Some (mkUser (username u) (passwords u) 4 expiry (cert u)) /\
  (licenseValid c' usersfile' name = true
   <-> expiry <> 0 /\ datetime_now c' <= expiry) /\
  (expiry = posix_now c + 5 * 60 * 1000000 -> 0 < posix_now c ->
   utcoffset c' = 0 ->
   (licenseValid c' usersfile' name = true
    <-> posix_now c' <= posix_now c + 5 * 60 * 1000000)).
Proof.
  intros Hne Hg expiry usersfile'.
  assert (Hr : getLicense usersfile' name
               = Some (mkUser (username u) (passwords u) 4 expiry (cert u))).
  { unfold usersfile'. rewrite (getLicense_updated c _ _ true view u Hne Hg).
    reflexivity. }
  assert (Hv : licenseValid c' usersfile' name = true
               <-> expiry <> 0 /\ datetime_now c' <= expiry).
  { apply (granted_license_valid c' _ name _ Hr). reflexivity. }
  split; [exact Hr|]. split; [exact Hv|].
  intros He Hpos Hz. rewrite Hv. unfold datetime_now. rewrite He, Hz. lia.
Qed.

Lemma renew_restores_license_witness :
  licenseValid Scenario.noon
    (snd (updateLicense Scenario.noon (Scenario.ledger_of (-3) 7) "alice"
            true true)) "alice" = true /\
  licenseValid
    (mkClock (posix_now Scenario.noon + 5 * 60 * 1000000 + 1) 0 (fun s => s))
    (snd (updateLicense Scenario.noon (Scenario.ledger_of (-3) 7) "alice"
            true true)) "alice" = false.
Proof.
  destruct (renew_restores_license Scenario.noon Scenario.noon
              (Scenario.ledger_of (-3) 7) "alice" (Scenario.alice (-3) 7)
              true ltac:(discriminate) eq_refl) as (_ & _ & Hnoon).
  destruct (renew_restores_license Scenario.noon
              (mkClock (posix_now Scenario.noon + 5 * 60 * 1000000 + 1) 0
                 (fun s => s))
              (Scenario.ledger_of (-3) 7) "alice" (Scenario.alice (-3) 7)
              true ltac:(discriminate) eq_refl) as (_ & _ & Hlate).
  split.
  - apply (proj2 (Hnoon eq_refl eq_refl eq_refl)). vm_compute. discriminate.
  - apply not_true_is_false. intros Hv.
    apply (proj1 (Hlate eq_refl eq_refl eq_refl)) in Hv. vm_compute in Hv.
    apply Hv. reflexivity.
Defined.

(** The license after [n] calls of [consume]. *)
Lemma consume_n_license (cs : list Clock) (usersfile : LicenseFile)
  (name : string) (u : User) :
  name <> ""%string ->
  getLicense usersfile name = Some u ->
  exists u', getLicense (consume_n cs usersfile name) name = Some u' /\
             views u' = views u - Z.of_nat (length cs).
Proof.
  intros Hne. revert usersfile u.
  induction cs as [|c rest IH]; intros usersfile u Hg; simpl consume_n.
  - exists u. split; [exact Hg|]. simpl. lia.
  - destruct (IH _ _ (consume_once c _ _ _ Hne Hg)) as (u' & Hg' & Hv).
    exists u'. split; [exact Hg'|]. rewrite Hv, length_cons. simpl. lia.
Qed.

(** X5.  Once as many views have been consumed as the license held, the
    license fails the validity check at every clock reading, and consuming
    further never makes it valid again. *)
Theorem exhausted_license_invalid (c : Clock) (cs : list Clock)
  (usersfile : LicenseFile) (name : string) (u : User) :
  name <> ""%string ->
  getLicense usersfile name = Some u ->
  views u <= Z.of_nat (length cs) ->
  licenseValid c (consume_n cs usersfile name) name = false.
Proof.
  intros Hne Hg Hv.
  destruct (consume_n_license cs _ _ _ Hne Hg) as (u' & Hg' & Hv').
  destruct (licenseValid c (consume_n cs usersfile name) name) eqn:E;
    [|reflexivity].
  apply licenseValid_spec in E as (u'' & Hg'' & Hpos & _).
  rewrite Hg' in Hg''. inversion Hg''; subst u''. lia.
Qed.

Lemma exhausted_license_invalid_witness :
  licenseValid Scenario.noon
    (consume_n [Scenario.noon; Scenario.noon; Scenario.noon; Scenario.noon]
       (Scenario.ledger_of 4 (posix_now Scenario.noon + 1)) "alice")
    "alice" = false.
Proof.
  apply (exhausted_license_invalid Scenario.noon
           [Scenario.noon; Scenario.noon; Scenario.noon; Scenario.noon]
           (Scenario.ledger_of 4 (posix_now Scenario.noon + 1)) "alice"
           (Scenario.alice 4 (posix_now Scenario.noon + 1)));
    [discriminate|reflexivity|simpl; lia].
Defined.

End LedgerExtras.

Section RegisterExtras.
Import Licenses.
Context {crypto : CryptoFunctions} {creds : Credentials}.

(** What a successful [register] has checked and built. *)
Lemma register_Ok_inv (c : Clock) (usersfile usersfile' : LicenseFile)
  (name password signature signcert : string) (intermedium : list string)
  (user : User) (msg : string) :
  register c usersfile name password signature signcert intermedium
    = (Ok (Some user, msg), usersfile') ->
  name <> ""%string /\
  validateSignature (public_key (getCertFromString signcert))
    (name +:+ password) signature = true /\
  find_user (load_users usersfile) name 0 = None /\
  (exists pw,
      password_digests password digests ∅ = Ok pw /\
      user = mkUser name pw 4 (timestamp c (datetime_now c + LICENSE_SPAN))
               (public_bytes_der (getCertFromString signcert))) /\
  usersfile' = Some (load_users usersfile ++ [user]).
Proof.
  unfold register.
  destruct (String.eqb_spec name "") as [->|Hne]; [discriminate|].
  destruct (String.eqb password ""); [discriminate|]. simpl.
  destruct (validateCerts signcert intermedium); [|discriminate]. simpl.
  destruct (validateSignature _ _ _) eqn:Hs; [|discriminate]. simpl.
  destruct (find_user (load_users usersfile) name 0) eqn:Hf; [discriminate|].
  destruct (password_digests password digests ∅) as [pw|e] eqn:Ep;
    [|discriminate].
  intros [= <- _ <-]. repeat split; try assumption; try reflexivity.
  exists pw. split; reflexivity.
Qed.

(** X4.  The license [register] has just written is the one [getLicense]
    returns for the username, and the expiry it holds is the number
    [(now() + LICENSE_SPAN).timestamp()] of the registration.  It passes the
    validity check at a clock reading [c'] exactly when that number is not
    zero and the local time of [c'] is not after its UTC reading.  Where the
    number is the instant five minutes after the registration, as it is when
    the offset of the zone does not change in those five minutes and the
    float holds the instant exactly, a server in a UTC zone finds the license
    valid up to that instant and no longer. *)
Theorem registered_license_window (c c' : Clock)
  (usersfile usersfile' : LicenseFile)
  (name password signature signcert : string) (intermedium : list string)
  (user : User) (msg : string) :
  register c usersfile name password signature signcert intermedium
    = (Ok (Some user, msg), usersfile') ->
  let expiry := timestamp c (datetime_now c + LICENSE_SPAN) in
  getLicense usersfile' name = Some user /\
  time user = expiry /\
  (licenseValid c' usersfile' name = true
   <-> expiry <> 0 /\ datetime_now c' <= expiry) /\
  (expiry = posix_now c + 5 * 60 * 1000000 -> 0 < posix_now c ->
   utcoffset c' = 0 ->
   (licenseValid c' usersfile' name = true
    <-> posix_now c' <= posix_now c + 5 * 60 * 1000000)).
Proof.
  intros Hr expiry.
  destruct (register_Ok_inv _ _ _ _ _ _ _ _ _ _ Hr)
    as (_ & _ & Hf & (pw & _ & Hu) & ->).
  assert (Hg : getLicense (Some (load_users usersfile ++ [user])) name
               = Some user).
  { unfold getLicense. simpl load_users. rewrite (find_user_app_new _ _ _ _ Hf).
    rewrite Hu. simpl username. rewrite String.eqb_refl. reflexivity. }
  assert (Ht : time user = expiry) by (rewrite Hu; reflexivity).
  assert (Hv : licenseValid c' (Some (load_users usersfile ++ [user])) name
               = true <-> expiry <> 0 /\ datetime_now c' <= expiry).
  { rewrite <- Ht.
    apply (granted_license_valid c' _ name user Hg). rewrite Hu. reflexivity. }
  split; [exact Hg|]. split; [exact Ht|]. split; [exact Hv|].
  intros He Hpos Hz. rewrite Hv. unfold datetime_now. rewrite He, Hz. lia.
Qed.

(** X6.  Whatever its outcome, [register] either leaves the file as it was or
    appends one record for a username that had none; every license that could
    be read before is read unchanged after, and usernames that were distinct
    stay distinct. *)
Theorem register_preserves_ledger (c : Clock) (usersfile : LicenseFile)
  (name password signature signcert : string) (intermedium : list string) :
  let usersfile' :=
    snd (register c usersfile name password signature signcert intermedium) in
  (usersfile' = usersfile \/
   exists user, username user = name /\ getLicense usersfile name = None /\
                usersfile' = Some (load_users usersfile ++ [user])) /\
  (forall other u, getLicense usersfile other = Some u ->
                   getLicense usersfile' other = Some u) /\
  (NoDup (username <$> load_users usersfile) ->
   NoDup (username <$> load_users usersfile')).
Proof.
  intros usersfile'.
  assert (Hcases :
            usersfile' = usersfile \/
            exists user, username user = name /\
                         find_user (load_users usersfile) name 0 = None /\
                         usersfile' = Some (load_users usersfile ++ [user])).
  { subst usersfile'. unfold register.
    destruct (String.eqb name "" || String.eqb password ""); [left; reflexivity|].
    destruct (negb (validateCerts signcert intermedium)); [left; reflexivity|].
    destruct (negb (validateSignature _ _ _)); [left; reflexivity|].
    destruct (find_user (load_users usersfile) name 0) eqn:Hf;
      [left; reflexivity|].
    destruct (password_digests password digests ∅) as [pw|e];
      [|left; reflexivity].
    right. eexists. split; [|split; [reflexivity|reflexivity]]. reflexivity. }
  destruct Hcases as [->|(user & Hu & Hf & ->)].
  - split; [left; reflexivity|]. split; auto.
  - split; [|split].
    + right. exists user. split; [exact Hu|]. split; [|reflexivity].
      unfold getLicense. rewrite Hf. reflexivity.
    + intros other u. unfold getLicense. simpl load_users.
      destruct (find_user (load_users usersfile) other 0) as [[v j]|] eqn:Ho;
        [|discriminate].
      rewrite (find_user_app_found _ user _ _ _ Ho). auto.
    + intros Hnd. simpl load_users. rewrite fmap_app. apply NoDup_app.
      split; [exact Hnd|]. split; [|apply NoDup_singleton].
      intros x Hx Hx'. apply list_elem_of_singleton in Hx'. simpl in Hx'.
      subst x. rewrite Hu in Hx. apply (proj1 (find_user_None _ _ 0) Hf). exact Hx.
Qed.

End RegisterExtras.

Section AuthenticateExtras.
Import Licenses.
Context {crypto : CryptoFunctions} {creds : Credentials} {x509 : X509}.

(** [register] stores a digest under no other name than those of
    [CryptoFunctions.digests]. *)
Lemma password_digests_dom (password : string) (ds : list string)
  (acc m : gmap string string) :
  password_digests password ds acc = Ok m ->
  forall d, is_Some (m !! d) -> d ∈ ds \/ is_Some (acc !! d).
Proof.
  revert acc. induction ds as [|d0 rest IH]; intros acc Hp d Hd; simpl in Hp.
  - inversion Hp; subst. right. exact Hd.
  - destruct (create_digest password (Some d0)) as [h0|e]; [|discriminate].
    destruct (IH _ Hp d Hd) as [Hin|Hacc].
    + left. right. exact Hin.
    + destruct (decide (d0 = d)) as [->|Hne]; [left; left|].
      rewrite lookup_insert_ne in Hacc by exact Hne. right. exact Hacc.
Qed.

(** X7.  [authenticate] returns a user exactly when the username has a record,
    the stored certificate loads, the signature over the username followed by
    the digest sent verifies under that certificate's key, the session names a
    digest algorithm, and the digest sent is the one stored for that
    algorithm; the user returned is the stored record and the message is
    empty. *)
Theorem authenticate_accepts_iff (usersfile : LicenseFile)
  (name password signature : string) (sessionData : gmap string string)
  (u : User) (msg : string) :
  authenticate usersfile name password signature sessionData
    = Ok (Some u, msg) <->
  getLicense usersfile name = Some u /\ msg = ""%string /\
  exists certificate digest,
    load_der_x509_certificate (cert u) = Ok certificate /\
    validateSignature (public_key certificate) (name +:+ password) signature
      = true /\
    sessionData !! "digest"%string = Some digest /\
    passwords u !! digest = Some password.
Proof.
  unfold authenticate, getLicense.
  destruct (find_user (load_users usersfile) name 0) as [[v j]|].
  - split.
    + destruct (load_der_x509_certificate (cert v)) as [certificate|e] eqn:El;
        [|discriminate].
      destruct (validateSignature _ _ _) eqn:Es; simpl; [|discriminate].
      destruct (sessionData !! "digest"%string) as [digest|]; [|discriminate].
      destruct (passwords v !! digest) as [stored|] eqn:Ep; [|discriminate].
      destruct (String.eqb_spec stored password) as [->|_]; [|discriminate].
      intros [= <- <-]. split; [reflexivity|]. split; [reflexivity|].
      exists certificate, digest. auto.
    + intros ([= ->] & -> & certificate & digest & -> & -> & -> & ->). simpl.
      rewrite String.eqb_refl. reflexivity.
  - split; [discriminate|]. intros ([=] & _).
Qed.

(** X8.  A user who has just registered authenticates: with the digest of the
    password under any algorithm of [CryptoFunctions.digests] named by the
    session, and a signature over the username followed by that digest that
    verifies under the certificate stored at registration, [authenticate]
    returns the record that [register] created. *)
Theorem register_then_authenticate (c : Clock)
  (usersfile usersfile' : LicenseFile)
  (name password signature signcert : string) (intermedium : list string)
  (user : User) (msg : string) (sessionData : gmap string string)
  (d h signature' : string) (certificate : Certificate) :
  register c usersfile name password signature signcert intermedium
    = (Ok (Some user, msg), usersfile') ->
  d ∈ digests ->
  sessionData !! "digest"%string = Some d ->
  create_digest password (Some d) = Ok h ->
  load_der_x509_certificate (public_bytes_der (getCertFromString signcert))
    = Ok certificate ->
  validateSignature (public_key certificate) (name +:+ h) signature' = true ->
  authenticate usersfile' name h signature' sessionData
    = Ok (Some user, ""%string).
Proof.
  intros Hr Hd Hs Hh Hl Hv.
  destruct (register_Ok_inv _ _ _ _ _ _ _ _ _ _ Hr)
    as (_ & _ & Hf & (pw & Hpw & Hu) & ->).
  assert (Hstored : pw !! d = Some h).
  { apply password_digests_sound in Hpw as (Hm & Hin & _).
    - destruct (Hin d Hd) as [h' Hh']. rewrite Hh'. f_equal.
      apply Hm in Hh'. congruence.
    - intros d' h' Hl'. rewrite lookup_empty in Hl'. discriminate. }
  unfold authenticate. simpl load_users. rewrite (find_user_app_new _ _ _ _ Hf).
  rewrite Hu. simpl username. rewrite String.eqb_refl. simpl cert.
  rewrite Hl, Hv, Hs. simpl. rewrite Hstored, String.eqb_refl. reflexivity.
Qed.

(** X9.  For a registered user a session whose digest algorithm is not among
    [CryptoFunctions.digests] cannot authenticate and gets no error message
    either: with a signature that verifies, [authenticate] raises [KeyError]. *)
Theorem authenticate_unsupported_digest (c : Clock)
  (usersfile usersfile' : LicenseFile)
  (name password signature signcert : string) (intermedium : list string)
  (user : User) (msg : string) (sessionData : gmap string string)
  (d sent signature' : string) (certificate : Certificate) :
  register c usersfile name password signature signcert intermedium
    = (Ok (Some user, msg), usersfile') ->
  d ∉ digests ->
  sessionData !! "digest"%string = Some d ->
  load_der_x509_certificate (public_bytes_der (getCertFromString signcert))
    = Ok certificate ->
  validateSignature (public_key certificate) (name +:+ sent) signature' = true ->
  authenticate usersfile' name sent signature' sessionData = Raise KeyError.
Proof.
  intros Hr Hd Hs Hl Hv.
  destruct (register_Ok_inv _ _ _ _ _ _ _ _ _ _ Hr)
    as (_ & _ & Hf & (pw & Hpw & Hu) & ->).
  unfold authenticate. simpl load_users. rewrite (find_user_app_new _ _ _ _ Hf).
  rewrite Hu. simpl username. rewrite String.eqb_refl. simpl cert.
  rewrite Hl, Hv, Hs. simpl.
  destruct (pw !! d) as [stored|] eqn:Ep; [|reflexivity].
  destruct (password_digests_dom _ _ _ _ Hpw d) as [Hin|[x Hx]];
    [eauto|contradiction|].
  rewrite lookup_empty in Hx. discriminate.
Qed.

End AuthenticateExtras.

Section LedgerExamples.
Import Licenses Scenario.
#[local] Existing Instances Plain.crypto Plain.credentials Plain.x509.

Lemma alice_registers :
  register noon None "alice" "secret" "cert-of-alicealicesecret"
    "cert-of-alice" ["root"%string]
  = (Ok (Some alice_registered, ""%string), Some [alice_registered]).
Proof. vm_compute. reflexivity. Qed.

Lemma registered_license_window_witness :
  getLicense (Some [alice_registered]) "alice" = Some alice_registered /\
  time alice_registered = posix_now noon + 5 * 60 * 1000000 /\
  licenseValid noon (Some [alice_registered]) "alice" = true /\
  licenseValid
    (mkClock (posix_now noon + 5 * 60 * 1000000 + 1) 0 (fun s => s))
    (Some [alice_registered]) "alice" = false.
Proof.
  destruct (registered_license_window noon noon None (Some [alice_registered])
              "alice" "secret" "cert-of-alicealicesecret" "cert-of-alice"
              ["root"%string] alice_registered "" alice_registers)
    as (Hg & Ht & _ & Hnoon).
  destruct (registered_license_window noon
              (mkClock (posix_now noon + 5 * 60 * 1000000 + 1) 0 (fun s => s))
              None (Some [alice_registered])
              "alice" "secret" "cert-of-alicealicesecret" "cert-of-alice"
              ["root"%string] alice_registered "" alice_registers)
    as (_ & _ & _ & Hlate).
  split; [exact Hg|]. split; [rewrite Ht; vm_compute; reflexivity|]. split.
  - apply (proj2 (Hnoon eq_refl eq_refl eq_refl)). vm_compute. discriminate.
  - apply not_true_is_false. intros Hv.
    apply (proj1 (Hlate eq_refl eq_refl eq_refl)) in Hv. vm_compute in Hv.
    apply Hv. reflexivity.
Defined.

Lemma register_preserves_ledger_witness :
  NoDup (username <$>
           load_users
             (snd (register noon (ledger_of 4 7) "bob" "secret"
                     "cert-of-bobbobsecret" "cert-of-bob" ["root"%string]))).
Proof.
  apply (register_preserves_ledger noon (ledger_of 4 7) "bob" "secret"
           "cert-of-bobbobsecret" "cert-of-bob" ["root"%string]).
  apply NoDup_singleton.
Defined.

Lemma authenticate_accepts_iff_witness :
  authenticate (Some [alice_registered]) "alice" "SHA512(secret)"
    "cert-of-alicealiceSHA512(secret)" (session_of "SHA512")
  = Ok (Some alice_registered, ""%string).
Proof.
  apply (proj2 (authenticate_accepts_iff (Some [alice_registered]) "alice"
                  "SHA512(secret)" "cert-of-alicealiceSHA512(secret)"
                  (session_of "SHA512") alice_registered "")).
  split; [reflexivity|]. split; [reflexivity|].
  exists ("cert-of-alice"%string : @Certificate Plain.credentials),
    "SHA512"%string.
  repeat split; vm_compute; reflexivity.
Defined.

Lemma register_then_authenticate_witness :
  authenticate (Some [alice_registered]) "alice" "BLAKE2(secret)"
    "cert-of-alicealiceBLAKE2(secret)" (session_of "BLAKE2")
  = Ok (Some alice_registered, ""%string).
Proof.
  apply (register_then_authenticate noon None (Some [alice_registered])
           "alice" "secret" "cert-of-alicealicesecret" "cert-of-alice"
           ["root"%string] alice_registered "" (session_of "BLAKE2")
           "BLAKE2" "BLAKE2(secret)" "cert-of-alicealiceBLAKE2(secret)"
           ("cert-of-alice"%string : @Certificate Plain.credentials)
           alice_registers).
  - right. left.
  - vm_compute. reflexivity.
  - reflexivity.
  - reflexivity.
  - vm_compute. reflexivity.
Defined.

Lemma authenticate_unsupported_digest_witness :
  authenticate (Some [alice_registered]) "alice" "MD5(secret)"
    "cert-of-alicealiceMD5(secret)" (session_of "MD5")
  = Raise KeyError.
Proof.
  apply (authenticate_unsupported_digest noon None (Some [alice_registered])
           "alice" "secret" "cert-of-alicealicesecret" "cert-of-alice"
           ["root"%string] alice_registered "" (session_of "MD5")
           "MD5" "MD5(secret)" "cert-of-alicealiceMD5(secret)"
           ("cert-of-alice"%string : @Certificate Plain.credentials)
           alice_registers).
  - intros Hin. repeat (apply elem_of_cons in Hin as [Hin|Hin]; [discriminate|]).
    inversion Hin.
  - vm_compute. reflexivity.
  - reflexivity.
  - vm_compute. reflexivity.
Defined.

End LedgerExamples.

(** * Further properties of the media server *)

Section ServerMore.
Import Server.
Context {crypto : CryptoFunctions} {codec : Codec} {kx : KeyExchange}
  {lic : LicensesModule}.

(** ** What the handlers leave alone *)

(** [cipher] touches the response headers only. *)
Lemma cipher_world (response : string) (append : option string) (w : World) :
  self (snd (cipher response append w)) = self w /\
  code (snd (cipher response append w)) = code w /\
  ledger (snd (cipher response append w)) = ledger w /\
  trace (snd (cipher response append w)) = trace w /\
  disk (snd (cipher response append w)) = disk w.
Proof.
  destruct (cipher response append w) as [[cryptogram|e] w'] eqn:E; simpl.
  - apply cipher_Ok in E as (key & MIC & _ & _ & _ & ->). auto.
  - apply cipher_Raise in E as ->. auto.
Qed.

Lemma seal_with_chunk_world (message : string) (chunk_id : chunk_var)
  (w : World) :
  self (snd (seal_with_chunk message chunk_id w)) = self w /\
  code (snd (seal_with_chunk message chunk_id w)) = code w /\
  ledger (snd (seal_with_chunk message chunk_id w)) = ledger w /\
  trace (snd (seal_with_chunk message chunk_id w)) = trace w /\
  disk (snd (seal_with_chunk message chunk_id w)) = disk w.
Proof.
  unfold seal_with_chunk. run_monad.
  destruct (py_bytes chunk_id) as [append|e]; [apply cipher_world|auto].
Qed.

Lemma after_license_update_unset (media_item : MediaItem) (w : World) :
  username (self w) = None -> after_license_update media_item w = w.
Proof. intros Hn. unfold after_license_update. rewrite Hn. reflexivity. Qed.

Lemma no_update_read (t : list Event) (file : string) (offset size : Z) :
  no_update t -> no_update (t ++ [ReadFile file offset size]).
Proof.
  intros Hn user d Hin. apply elem_of_app in Hin as [Hin|Hin].
  - exact (Hn _ _ Hin).
  - apply list_elem_of_singleton in Hin. discriminate.
Qed.

(** [do_download] never changes the server object nor the files; while no
    username is set it does not change the state of [licenses] and makes no
    call of [update_license]. *)
Lemma do_download_world (catalog : list (string * MediaItem))
  (request : Request) (w : World) :
  self (snd (do_download catalog request w)) = self w /\
  disk (snd (do_download catalog request w)) = disk w /\
  (username (self w) = None ->
   ledger (snd (do_download catalog request w)) = ledger w /\
   (no_update (trace w) -> no_update (trace (snd (do_download catalog request w))))).
Proof.
  unfold do_download, args_get_first.
  destruct (args request !! "id"%string) as [[|media_id rest_id]|]; run_monad;
    [simpl; auto| |].
  2:{ match goal with
      | |- context [seal_with_chunk ?m ?v ?W] =>
          destruct (seal_with_chunk_world m v W) as (Hs & _ & Hl & Ht & Hd)
      end.
      rewrite Hs, Hl, Ht, Hd. simpl. auto. }
  destruct (catalog_get catalog media_id) as [media_item|].
  2:{ match goal with
      | |- context [seal_with_chunk ?m ?v ?W] =>
          destruct (seal_with_chunk_world m v W) as (Hs & _ & Hl & Ht & Hd)
      end.
      rewrite Hs, Hl, Ht, Hd. simpl. auto. }
  assert (Hraw : forall raw,
             let r := (let (r, w') := check_chunk media_item raw w in
                       match r with
                       | Ok a =>
                           (let '(chunk_id, valid_chunk) := a in
                            if negb valid_chunk
                            then
                              setResponseCode 400;;
                              addRawHeader "content-type" "application/json";;
                              seal_with_chunk (error_message "invalid chunk id")
                                chunk_id
                            else
                              match chunk_id with
                              | ChunkInt n =>
                                  let offset := n * CHUNK_SIZE in
                                  data ← read_file
                                           (path_join CATALOG_BASE
                                              (file_name media_item))
                                           offset CHUNK_SIZE;
                                  addRawHeader "content-type" "application/json";;
                                  seal_with_chunk
                                    (chunk_message media_id n data) chunk_id
                              | _ => raise TypeError
                              end) w'
                       | Raise e => (Raise e, w')
                       end) in
             self (snd r) = self w /\ disk (snd r) = disk w /\
             (username (self w) = None ->
              ledger (snd r) = ledger w /\
              (no_update (trace w) -> no_update (trace (snd r))))).
  { intros raw. rewrite check_chunk_spec.
    destruct (py_int raw) as [n|e].
    - destruct ((0 <=? n) && (n <? ceil_div (file_size media_item) CHUNK_SIZE)).
      + cbv zeta. change (negb true) with false. cbv iota beta. run_monad.
        unfold read_file.
        rewrite after_license_update_disk.
        destruct (disk w !! path_join CATALOG_BASE (file_name media_item))
          as [content|].
        * match goal with
          | |- context [seal_with_chunk ?m ?v ?W] =>
              destruct (seal_with_chunk_world m v W) as (Hs & _ & Hl & Ht & Hd)
          end.
          rewrite Hs, Hl, Ht, Hd. simpl.
          destruct (after_license_update_reply media_item w) as (Hs' & _ & _).
          split; [exact Hs'|]. split; [first [reflexivity|apply after_license_update_disk]|].
          intros Hn. rewrite (after_license_update_unset _ _ Hn).
          split; [reflexivity|apply no_update_read].
        * simpl.
          destruct (after_license_update_reply media_item w) as (Hs' & _ & _).
          split; [exact Hs'|]. split; [first [reflexivity|apply after_license_update_disk]|].
          intros Hn. rewrite (after_license_update_unset _ _ Hn). auto.
      + cbv zeta. change (negb false) with true. cbv iota beta. run_monad.
        match goal with
        | |- context [seal_with_chunk ?m ?v ?W] =>
            destruct (seal_with_chunk_world m v W) as (Hs & _ & Hl & Ht & Hd)
        end.
        rewrite Hs, Hl, Ht, Hd. simpl. auto.
    - cbv zeta. change (negb false) with true. cbv iota beta. run_monad.
      match goal with
      | |- context [seal_with_chunk ?m ?v ?W] =>
          destruct (seal_with_chunk_world m v W) as (Hs & _ & Hl & Ht & Hd)
      end.
      rewrite Hs, Hl, Ht, Hd. simpl. auto. }
  destruct (args request !! "chunk"%string) as [[|v rest]|]; run_monad;
    [simpl; auto|apply Hraw|apply Hraw].
Qed.

Lemma do_list_world (catalog : list (string * MediaItem)) (request : Request)
  (w : World) :
  self (snd (do_list catalog request w)) = self w /\
  disk (snd (do_list catalog request w)) = disk w /\
  ledger (snd (do_list catalog request w)) = ledger w /\
  trace (snd (do_list catalog request w)) = trace w.
Proof.
  unfold do_list. run_monad.
  match goal with
  | |- context [cipher ?m ?a ?W] =>
      destruct (cipher_world m a W) as (Hs & _ & Hl & Ht & Hd)
  end.
  rewrite Hs, Hl, Ht, Hd. simpl. auto.
Qed.

(** [render_GET] always returns a body; it never changes the server object
    nor the files, and while no username is set it leaves the state of
    [licenses] alone and calls no [update_license]. *)
Lemma render_GET_world (catalog : list (string * MediaItem)) (request : Request)
  (w : World) :
  (exists body, fst (render_GET catalog request w) = Ok body) /\
  self (snd (render_GET catalog request w)) = self w /\
  disk (snd (render_GET catalog request w)) = disk w /\
  (username (self w) = None ->
   ledger (snd (render_GET catalog request w)) = ledger w /\
   (no_update (trace w) ->
    no_update (trace (snd (render_GET catalog request w))))).
Proof.
  unfold render_GET, try_except.
  destruct (String.eqb (path request) "/api/parameters");
    [run_monad; simpl; eauto 10|].
  destruct (String.eqb (path request) "/api/protocols");
    [run_monad; simpl; eauto 10|].
  destruct (String.eqb (path request) "/api/list").
  { destruct (do_list_world catalog request w) as (Hs & Hd & Hl & Ht).
    destruct (do_list catalog request w) as [[body|e] w1]; simpl in *;
      rewrite ?Hs, ?Hd, ?Hl, ?Ht; eauto 10. }
  destruct (String.eqb (path request) "/api/download").
  { destruct (do_download_world catalog request w) as (Hs & Hd & Hu).
    destruct (do_download catalog request w) as [[body|e] w1]; simpl in *;
      rewrite ?Hs, ?Hd; eauto 10. }
  run_monad. simpl. eauto 10.
Qed.

(** [render_POST] always returns; it changes nothing but the suite, the
    sessions and the response: the parameters, the server-wide key, the
    username, the state of [licenses], the log and the files stay. *)
Lemma render_POST_world (sessionid : string) (keys : PrivateKey * PublicKey)
  (request : Request) (w : World) :
  (exists r, fst (render_POST sessionid keys request w) = Ok r) /\
  parameters (self (snd (render_POST sessionid keys request w)))
    = parameters (self w) /\
  shared_key (self (snd (render_POST sessionid keys request w)))
    = shared_key (self w) /\
  KEY (self (snd (render_POST sessionid keys request w))) = KEY (self w) /\
  username (self (snd (render_POST sessionid keys request w)))
    = username (self w) /\
  ledger (snd (render_POST sessionid keys request w)) = ledger w /\
  trace (snd (render_POST sessionid keys request w)) = trace w /\
  disk (snd (render_POST sessionid keys request w)) = disk w.
Proof.
  unfold render_POST, try_except.
  destruct (String.eqb (path request) "/api/suite").
  { unfold process_negotiation, args_first, decode_utf8.
    destruct (args request !! "cipher"%string) as [[|c rc]|];
      run_monad; simpl; eauto 10.
    destruct (utf8_valid c); simpl; eauto 10.
    destruct (args request !! "digest"%string) as [[|d rd]|];
      run_monad; simpl; eauto 10.
    destruct (utf8_valid d); simpl; eauto 10.
    destruct (args request !! "cipher_mode"%string) as [[|m rm]|];
      run_monad; simpl; eauto 10.
    destruct (utf8_valid m); simpl; eauto 10. }
  destruct (String.eqb (path request) "/api/publickey").
  { destruct keys as [private_key public_key'].
    unfold do_public_key, args_first.
    destruct (args request !! "public_key"%string) as [[|pem rest]|];
      run_monad; simpl; eauto 10.
    destruct (load_pem_public_key pem) as [peer|e]; simpl; eauto 10.
    destruct (exchange private_key peer) as [shared|e]; simpl; eauto 10. }
  destruct (String.eqb (path request) "/api/newLicense");
    unfold new_license; run_monad; simpl; eauto 10.
Qed.

(** ** What holds on every server started by [MediaServer()] *)

Lemma reachable_invariant (l : LedgerState) (w : World) :
  reachable l w ->
  shared_key (self w) = None /\ username (self w) = None /\
  ledger w = l /\ no_update (trace w).
Proof.
  induction 1 as [pem d|w request Hr (Hk & Hu & Hl & Ht)
                 |w sessionid keys request Hr (Hk & Hu & Hl & Ht)].
  - simpl. repeat split. intros user d' Hin. inversion Hin.
  - destruct (render_GET_world CATALOG request (begin_request w))
      as (_ & Hs & _ & Hq).
    rewrite Hs. simpl self. destruct (Hq Hu) as (Hl' & Ht').
    rewrite Hl'. simpl. auto.
  - destruct (render_POST_world sessionid keys request (begin_request w))
      as (_ & _ & Hk' & _ & Hu' & Hl' & Ht' & _).
    rewrite Hk', Hu', Hl', Ht'. simpl. auto.
Qed.

End ServerMore.

Section ServerExtras.
Import Server.
Context {crypto : CryptoFunctions} {codec : Codec} {kx : KeyExchange}
  {lic : LicensesModule}.

(** X10.  Whatever the path and the arguments, [render_GET] returns a body
    (no exception leaves it) and keeps the server object and the files as
    they were. *)
Theorem render_GET_never_fails (catalog : list (string * MediaItem))
  (request : Request) (w : World) :
  exists body w',
    render_GET catalog request w = (Ok body, w') /\
    self w' = self w /\ disk w' = disk w.
Proof.
  destruct (render_GET_world catalog request w) as ([body Hb] & Hs & Hd & _).
  destruct (render_GET catalog request w) as [r w'] eqn:E. simpl in *.
  subst r. exists body, w'. auto.
Qed.

(** X11.  Whatever the path and the arguments, [render_POST] returns (no
    exception leaves it), and of the server it changes at most the suite and
    the sessions: the parameters, the server-wide [shared_key], [KEY], the
    username, the state of [licenses], the log of outside calls and the files
    are as before. *)
Theorem render_POST_never_fails (sessionid : string)
  (keys : PrivateKey * PublicKey) (request : Request) (w : World) :
  exists r w',
    render_POST sessionid keys request w = (Ok r, w') /\
    parameters (self w') = parameters (self w) /\
    shared_key (self w') = shared_key (self w) /\
    KEY (self w') = KEY (self w) /\
    username (self w') = username (self w) /\
    ledger w' = ledger w /\ trace w' = trace w /\ disk w' = disk w.
Proof.
  destruct (render_POST_world sessionid keys request w)
    as ([r Hr] & Hp & Hk & HK & Hu & Hl & Ht & Hd).
  destruct (render_POST sessionid keys request w) as [r' w'] eqn:E. simpl in *.
  subst r'. exists r, w'. auto 10.
Qed.

(** X12.  On a server started by [MediaServer()] no sequence of GET and POST
    requests ever sets the server-wide [shared_key] or the username, calls
    [update_license], or changes the state of [licenses]. *)
Theorem started_server_never_updates_license (l : LedgerState) (w : World) :
  reachable l w ->
  shared_key (self w) = None /\ username (self w) = None /\
  ledger w = l /\ no_update (trace w).
Proof. apply reachable_invariant. Qed.

(** ** Downloads that cannot be sealed *)

Lemma cipher_without_key (response append : string) (w : World) :
  shared_key (self w) = None -> append <> ""%string ->
  cipher response (Some append) w = (Raise TypeError, w).
Proof.
  intros Hk Ha. unfold cipher, cipher_key. run_monad. rewrite Hk.
  destruct append; [contradiction|reflexivity].
Qed.

Lemma zeros_not_empty (n : Z) : 1 <= n -> zeros (Z.to_nat n) <> ""%string.
Proof.
  intros Hn. destruct (Z.to_nat n) as [|k] eqn:E; [lia|discriminate].
Qed.

(** A chunk in range whose file is not there: the license update has been
    called, and opening the file raises. *)
Lemma do_download_missing_file (catalog : list (string * MediaItem))
  (request : Request) (w : World) (media_id : string) (rest_id : list string)
  (media_item : MediaItem) (raw : string) (n : Z) :
  args request !! "id"%string = Some (media_id :: rest_id) ->
  catalog_get catalog media_id = Some media_item ->
  chunk_argument request raw ->
  py_int raw = Ok n ->
  0 <= n < ceil_div (file_size media_item) CHUNK_SIZE ->
  disk w !! path_join CATALOG_BASE (file_name media_item) = None ->
  do_download catalog request w =
    (Raise OSError, after_license_update media_item w).
Proof.
  intros Hid Hcat Hraw Hint Hrange Hdisk.
  unfold do_download, args_get_first. rewrite Hid. run_monad. rewrite Hcat.
  assert (Hchunk :
            match args request !! "chunk"%string with
            | None => (Ok "0"%string, w)
            | Some [] => (Raise IndexError, w)
            | Some (v :: _) => (Ok (id v), w)
            end = (Ok raw, w)).
  { destruct Hraw as [[-> ->]|[rest ->]]; reflexivity. }
  destruct (args request !! "chunk"%string) as [[|v rest]|];
    try discriminate; injection Hchunk as ->; unfold id;
    rewrite check_chunk_spec, Hint;
    (replace ((0 <=? n) && (n <? ceil_div (file_size media_item) CHUNK_SIZE))
       with true by (symmetry; apply andb_true_iff; split; lia));
    simpl; unfold read_file; rewrite after_license_update_disk, Hdisk;
    reflexivity.
Qed.

(** A download request that does not name a known media item ends in an
    exception. *)
Lemma do_download_no_media (catalog : list (string * MediaItem))
  (request : Request) (w : World) :
  match args request !! "id"%string with
  | Some (media_id :: _) => catalog_get catalog media_id = None
  | _ => True
  end ->
  exists e status,
    do_download catalog request w
      = (Raise e, match args request !! "id"%string with
                  | Some [] => w
                  | _ => answering status "application/json" w
                  end).
Proof.
  unfold do_download, args_get_first.
  destruct (args request !! "id"%string) as [[|media_id rest_id]|]; run_monad.
  - intros _. exists IndexError, 0. reflexivity.
  - intros ->. exists UnboundLocalError, 404. reflexivity.
  - intros _. exists UnboundLocalError, 400. reflexivity.
Qed.

(** X13.  A server started by [MediaServer()] cannot seal a reply that is
    bound to a chunk index other than 0: whatever requests came before, every
    download request whose chunk argument reads as an integer other than 0 is
    answered with code 500 and an empty body. *)
Theorem started_server_refuses_later_chunks (l : LedgerState) (w : World)
  (request : Request) (raw : string) (n : Z) :
  reachable l w ->
  path request = "/api/download"%string ->
  chunk_argument request raw ->
  py_int raw = Ok n ->
  n <> 0 ->
  fst (render_GET CATALOG request (begin_request w)) = Ok ""%string /\
  code (snd (render_GET CATALOG request (begin_request w))) = 500.
Proof.
  intros Hr Hp Hraw Hint Hn.
  destruct (reachable_invariant _ _ Hr) as (Hk & Hu & _ & _).
  rewrite (render_GET_download _ _ _ Hp).
  set (w0 := begin_request w).
  assert (Hk0 : shared_key (self w0) = None) by exact Hk.
  assert (Hraise : exists e w1, do_download CATALOG request w0 = (Raise e, w1)).
  { destruct (args request !! "id"%string) as [[|media_id rest_id]|] eqn:Hid.
    - destruct (do_download_no_media CATALOG request w0) as (e & st & He);
        [rewrite Hid; exact I|]. eauto.
    - destruct (catalog_get CATALOG media_id) as [media_item|] eqn:Hcat.
      + destruct (Z.lt_ge_cases n 0) as [Hneg|Hpos].
        { rewrite (do_download_negative _ _ w0 _ _ _ _ _ Hid Hcat Hraw Hint Hneg).
          eauto. }
        destruct (Z.lt_ge_cases n (ceil_div (file_size media_item) CHUNK_SIZE))
          as [Hin|Hout].
        * destruct (disk w0 !! path_join CATALOG_BASE (file_name media_item))
            as [content|] eqn:Hdisk.
          -- rewrite (do_download_in_range _ _ w0 _ _ _ _ _ _ Hid Hcat Hraw Hint
                        (conj Hpos Hin) Hdisk).
             rewrite cipher_without_key; [eauto| |apply zeros_not_empty; lia].
             unfold after_read. simpl self.
             destruct (after_license_update_reply media_item w0) as (-> & _).
             exact Hk0.
          -- rewrite (do_download_missing_file _ _ w0 _ _ _ _ _ Hid Hcat Hraw
                        Hint (conj Hpos Hin) Hdisk). eauto.
        * rewrite (do_download_past_end _ _ w0 _ _ _ _ _ Hid Hcat Hraw Hint
                     Hpos Hout).
          rewrite cipher_without_key; [eauto|exact Hk0|apply zeros_not_empty; lia].
      + destruct (do_download_no_media CATALOG request w0) as (e & st & He);
          [rewrite Hid; exact Hcat|]. eauto.
    - destruct (do_download_no_media CATALOG request w0) as (e & st & He);
        [rewrite Hid; exact I|]. eauto. }
  destruct Hraise as (e & w1 & ->). split; reflexivity.
Qed.

(** X14.  A negotiation request that names a cipher but no digest is answered
    with code 501 and yet, when the cipher can be decoded as UTF-8, has
    changed the server: the cipher is the new one, while the digest and the
    mode are the old ones.  When the cipher cannot be decoded the answer is
    the same and the server keeps the suite it had. *)
Theorem half_negotiation_changes_cipher (sessionid : string)
  (keys : PrivateKey * PublicKey) (request : Request) (w : World)
  (c : string) (rc : list string) :
  path request = "/api/suite"%string ->
  args request !! "cipher"%string = Some (c :: rc) ->
  args request !! "digest"%string = None ->
  let r := render_POST sessionid keys request w in
  fst r = Ok (Some ""%string) /\
  code (snd r) = 501 /\
  CIPHER (self (snd r))
    = (if utf8_valid c then Some c else CIPHER (self w)) /\
  DIGEST (self (snd r)) = DIGEST (self w) /\
  CIPHER_MODE (self (snd r)) = CIPHER_MODE (self w).
Proof.
  intros Hp Hc Hd. unfold render_POST, try_except. rewrite Hp.
  change (String.eqb "/api/suite" "/api/suite") with true. cbv iota.
  unfold process_negotiation, args_first, decode_utf8. rewrite Hc, Hd.
  run_monad. destruct (utf8_valid c); simpl; auto.
Qed.

(** X15.  [do_public_key] leaves every other session as it was; when it
    raises, nothing at all has changed, and when it returns, the session id
    maps to a record with the key pair of the call and a secret that the
    exchange with a key loaded from the request gave. *)
Theorem do_public_key_sessions (sessionid : string)
  (keys : PrivateKey * PublicKey) (request : Request) (w w' : World)
  (r : res (option string)) :
  do_public_key sessionid keys request w = (r, w') ->
  (forall other, other <> sessionid ->
     sessions (self w') !! other = sessions (self w) !! other) /\
  match r with
  | Raise _ => w' = w
  | Ok _ =>
      exists pem rest peer shared,
        args request !! "public_key"%string = Some (pem :: rest) /\
        load_pem_public_key pem = Ok peer /\
        exchange keys.1 peer = Ok shared /\
        sessions (self w') !! sessionid = Some (mkSession keys.2 keys.1 shared)
  end.
Proof.
  destruct keys as [private_key public_key'].
  unfold do_public_key, args_first.
  destruct (args request !! "public_key"%string) as [[|pem rest]|];
    run_monad; try (intros [= <- <-]; auto).
  destruct (load_pem_public_key pem) as [peer|e] eqn:El;
    [|intros [= <- <-]; auto].
  destruct (exchange private_key peer) as [shared|e] eqn:Ee;
    intros [= <- <-]; [|auto]. simpl. split.
  - intros other Ho. apply lookup_insert_ne. congruence.
  - exists pem, rest, peer, shared. rewrite lookup_insert_eq. auto.
Qed.

Lemma append_inj_l (k a b : string) : k +:+ a = k +:+ b -> a = b.
Proof.
  induction k as [|ch k IH]; simpl; [auto|]. intros [= Hk]. auto.
Qed.

Lemma zeros_inj (a b : nat) : zeros a = zeros b -> a = b.
Proof.
  revert b. induction a as [|a IH]; intros [|b]; simpl; try discriminate;
    [reflexivity|]. intros [= Hz]. f_equal. auto.
Qed.

(** X16.  The binding of a reply to its chunk index: for chunk 0 the binding
    bytes are empty, so the reply is sealed exactly as an unbound one, such as
    the listing; for two indices that are not negative, a server that holds a
    key hands the same key to the encryption only when the indices are
    equal. *)
Theorem chunk_binding (srv : MediaServer) (message : string) (w : World)
  (k : string) (n m : Z) :
  seal_with_chunk message (ChunkInt 0) w = cipher message None w /\
  (shared_key srv = Some k -> 0 <= n -> 0 <= m ->
   cipher_key srv (Some (zeros (Z.to_nat n)))
     = cipher_key srv (Some (zeros (Z.to_nat m))) ->
   n = m).
Proof.
  split; [reflexivity|].
  intros Hk Hn Hm. unfold cipher_key. rewrite Hk.
  destruct (Z.to_nat n) as [|a] eqn:En, (Z.to_nat m) as [|b] eqn:Em; simpl.
  - intros _. lia.
  - intros [= He]. exfalso. clear -He.
    assert (Hl : String.length k
                 = String.length (k +:+ String Ascii.zero (zeros b)))
      by (rewrite <- He; reflexivity).
    clear He. induction k as [|ch k IH]; simpl in Hl; [discriminate|].
    injection Hl as Hl. auto.
  - intros [= He]. exfalso. clear -He.
    assert (Hl : String.length (k +:+ String Ascii.zero (zeros a))
                 = String.length k)
      by (rewrite He; reflexivity).
    clear He. induction k as [|ch k IH]; simpl in Hl; [discriminate|].
    injection Hl as Hl. auto.
  - intros [= He]. apply append_inj_l in He. injection He as He.
    apply zeros_inj in He. lia.
Qed.



(** X19.  A download request that names no media item, or one that is not in
    the catalogue, never gets its error message: code 400, respectively 404,
    is set, then the reply fails on the chunk index, which has no value yet,
    and [render_GET] answers with code 500 and an empty body, the server, the
    state of [licenses], the log and the files being as before. *)
Theorem unknown_media_reply (catalog : list (string * MediaItem))
  (request : Request) (w : World) :
  path request = "/api/download"%string ->
  (args request !! "id"%string = None ->
   render_GET catalog request w
     = (Ok ""%string,
        answering 500 "text/plain" (answering 400 "application/json" w))) /\
  (forall media_id rest_id,
     args request !! "id"%string = Some (media_id :: rest_id) ->
     catalog_get catalog media_id = None ->
     render_GET catalog request w
       = (Ok ""%string,
          answering 500 "text/plain" (answering 404 "application/json" w))).
Proof.
  intros Hp. rewrite (render_GET_download _ _ _ Hp).
  unfold do_download, args_get_first. split.
  - intros ->. reflexivity.
  - intros media_id rest_id -> Hcat. run_monad. rewrite Hcat. reflexivity.
Qed.

End ServerExtras.

(** * The chunks of an asset *)

Section Chunks.
Import Server.
Context {kx : KeyExchange} {lic : LicensesModule}.

Lemma substring_skip (a n m : nat) (s : string) :
  String.substring (a + n) m s = String.substring n m (skip a s).
Proof.
  revert s. induction a as [|a IH]; intros s; [reflexivity|].
  destruct s as [|ch s]; simpl.
  - destruct n, m; reflexivity.
  - apply IH.
Qed.

Lemma substring_0_skip (c : nat) (s : string) :
  String.substring 0 c s +:+ skip c s = s.
Proof.
  revert s. induction c as [|c IH]; intros s; [destruct s; reflexivity|].
  destruct s as [|ch s]; [reflexivity|].
  change (String ch (String.substring 0 c s +:+ skip c s) = String ch s).
  f_equal. apply IH.
Qed.

Lemma length_skip (c : nat) (s : string) :
  String.length (skip c s) = (String.length s - c)%nat.
Proof.
  revert s. induction c as [|c IH]; intros s; simpl; [lia|].
  destruct s as [|ch s]; simpl; [reflexivity|]. apply IH.
Qed.

Lemma length_substring (a m : nat) (s : string) :
  String.length (String.substring a m s)
    = Nat.min m (String.length s - a).
Proof.
  revert a m. induction s as [|ch s IH]; intros a m.
  - destruct a, m; reflexivity.
  - destruct a as [|a]; simpl.
    + destruct m as [|m]; simpl; [reflexivity|]. rewrite IH. simpl.
      f_equal. f_equal. lia.
    + apply IH.
Qed.

Lemma reassemble_all (c k : nat) (s : string) :
  (String.length s <= k * c)%nat -> reassemble c k s = s.
Proof.
  revert s. induction k as [|k IH]; intros s Hl.
  - destruct s; [reflexivity|simpl in Hl; lia].
  - unfold reassemble. change (seq 0 (S k)) with (0%nat :: seq 1 k).
    rewrite fmap_cons.
    cbn [foldr]. rewrite <- fmap_S_seq, <- list_fmap_compose.
    rewrite (list_fmap_ext _ (fun n => String.substring (n * c) c (skip c s))).
    + fold (reassemble c k (skip c s)). rewrite IH.
      * apply substring_0_skip.
      * rewrite length_skip. lia.
    + intros i n _. simpl. apply substring_skip.
Qed.

(** What [do_download] reads for chunk [n] of a file that is there. *)
Lemma read_file_chunk (file content : string) (n : Z) (w : World) :
  disk w !! file = Some content ->
  fst (read_file file (n * CHUNK_SIZE) CHUNK_SIZE w)
    = Ok (chunk_data content n).
Proof. intros Hd. unfold read_file. rewrite Hd. reflexivity. Qed.

(** X20.  For a catalogue entry whose [file_size] is the length of its file,
    the number of chunks that [do_list] announces for the entry, which is
    also the bound of the check in [do_download], is the number of chunks
    the file has: the data [do_download] reads for the indices from 0 to
    that number less one, put back together in that order, give the file
    again, and none of them is empty. *)
Theorem chunks_reassemble (media_id : string) (media_item : MediaItem)
  (content : string) :
  file_size media_item = Z.of_nat (String.length content) ->
  exists chunks,
    media_summary (media_id, media_item)
      = JObj [ ("id"%string, JStr media_id);
               ("name"%string, JStr (name media_item));
               ("description"%string, JStr (description media_item));
               ("chunks"%string, JInt chunks);
               ("duration"%string, JInt (duration media_item)) ] /\
    (forall n, (0 <=? n) && (n <? ceil_div (file_size media_item) CHUNK_SIZE)
               = true <-> 0 <= n < chunks) /\
    (forall n (w : World),
        disk w !! path_join CATALOG_BASE (file_name media_item) = Some content ->
        fst (read_file (path_join CATALOG_BASE (file_name media_item))
               (n * CHUNK_SIZE) CHUNK_SIZE w) = Ok (chunk_data content n)) /\
    foldr String.append EmptyString
      ((fun n => chunk_data content (Z.of_nat n)) <$> seq 0 (Z.to_nat chunks))
      = content /\
    (forall n, 0 <= n < chunks -> chunk_data content n <> ""%string).
Proof.
  intros Hsize. exists (ceil_div (file_size media_item) CHUNK_SIZE).
  split; [reflexivity|]. split; [intros n; rewrite andb_true_iff; lia|].
  split; [intros n w Hd; exact (read_file_chunk _ _ n w Hd)|].
  rewrite Hsize.
  set (chunks := ceil_div (Z.of_nat (String.length content)) CHUNK_SIZE).
  assert (Hc : Z.of_nat (String.length content) <= chunks * CHUNK_SIZE).
  { destruct (Z.le_gt_cases (Z.of_nat (String.length content))
                (chunks * CHUNK_SIZE)) as [Hle|Hgt]; [exact Hle|].
    apply (ceil_div_spec _ CHUNK_SIZE chunks) in Hgt; [|reflexivity].
    unfold chunks in Hgt at 1. lia. }
  split.
  - rewrite (list_fmap_ext _
               (fun n => String.substring (n * Z.to_nat CHUNK_SIZE)
                           (Z.to_nat CHUNK_SIZE) content)).
    + apply (reassemble_all (Z.to_nat CHUNK_SIZE) (Z.to_nat chunks) content).
      assert (0 <= chunks) by (unfold CHUNK_SIZE in *; lia).
      unfold CHUNK_SIZE in *. lia.
    + intros i n _. unfold chunk_data. f_equal. unfold CHUNK_SIZE. lia.
  - intros n [Hn Hlt] He.
    apply (ceil_div_spec _ CHUNK_SIZE n) in Hlt; [|reflexivity].
    apply (f_equal String.length) in He. unfold chunk_data in He.
    rewrite length_substring in He. change (String.length "") with 0%nat in He.
    clear Hc. clearbody chunks. unfold CHUNK_SIZE in *. lia.
Qed.

(** Without the agreement of [file_size] with the file the announced number
    promises too much: an entry that gives 8192 bytes for a file of ten has
    two chunks announced, and the second is empty. *)
Example announced_chunk_beyond_file :
  ceil_div (file_size (mkMedia "n" "a" "d" 1 "f.mp3" 8192)) CHUNK_SIZE = 2 /\
  chunk_data "0123456789" 1 = ""%string.
Proof. split; reflexivity. Qed.

End Chunks.

(** * The client's menus *)

Section ClientExtras.
Import Client.

Lemma choose_inv (options inputs rest : list string) (o : string) :
  choose options inputs = Returned (o, rest) ->
  exists skipped line op,
    inputs = skipped ++ line :: rest /\
    Forall (out_of_menu options) skipped /\
    Server.py_int line = Ok op /\
    1 <= op <= Z.of_nat (length options) /\
    options !! Z.to_nat (op - 1) = Some o.
Proof.
  induction inputs as [|line more IH]; simpl; [discriminate|].
  destruct (Server.py_int line) as [op|e] eqn:Ep; [|discriminate].
  destruct (Z.leb_spec 1 op), (Z.leb_spec op (Z.of_nat (length options)));
    simpl.
  - destruct (options !! Z.to_nat (op - 1)) as [o'|] eqn:El; [|discriminate].
    intros [= <- <-]. exists [], line, op. repeat split; auto.
  - intros Hc. destruct (IH Hc) as (skipped & l & v & -> & Hs & Hr).
    exists (line :: skipped), l, v. split; [reflexivity|]. split; [|exact Hr].
    constructor; [|exact Hs]. exists op. split; [exact Ep|lia].
  - intros Hc. destruct (IH Hc) as (skipped & l & v & -> & Hs & Hr).
    exists (line :: skipped), l, v. split; [reflexivity|]. split; [|exact Hr].
    constructor; [|exact Hs]. exists op. split; [exact Ep|lia].
  - intros Hc. destruct (IH Hc) as (skipped & l & v & -> & Hs & Hr).
    exists (line :: skipped), l, v. split; [reflexivity|]. split; [|exact Hr].
    constructor; [|exact Hs]. exists op. split; [exact Ep|lia].
Qed.


Lemma choose_member (options inputs rest : list string) (o : string) :
  choose options inputs = Returned (o, rest) -> o ∈ options.
Proof.
  intros Hc. apply choose_inv in Hc as (_ & _ & op & _ & _ & _ & _ & Hl).
  apply list_elem_of_lookup. eauto.
Qed.

(** X22.  When [client_chosen_options] returns a suite, the server answered
    200 and the suite is not the one picked: its cipher is the entry picked in
    the menu of digests, its digest is the last digest offered whatever was
    picked, and only its mode is the entry picked in the menu of modes; the
    pick made in the menu of ciphers is not in it. *)
Theorem client_suite_mixes_choices (status_code : Z) (protocols : Protocols)
  (inputs rest : list string) (suite : CipherSuite) :
  client_chosen_options status_code protocols inputs = Returned (suite, rest) ->
  status_code = 200 /\
  exists picked inputs1 inputs2,
    choose (cipher protocols) inputs = Returned (picked, inputs1) /\
    choose (digests protocols) inputs1 = Returned (suite_cipher suite, inputs2) /\
    choose (cipher_mode protocols) inputs2
      = Returned (suite_cipher_mode suite, rest) /\
    suite_cipher suite ∈ digests protocols /\
    last (digests protocols) = Some (suite_digest suite) /\
    suite_cipher_mode suite ∈ cipher_mode protocols.
Proof.
  unfold client_chosen_options.
  destruct (Z.eqb_spec status_code 200) as [->|_]; simpl; [|discriminate].
  destruct (choose (cipher protocols) inputs) as [[picked inputs1]| | |] eqn:E1;
    try discriminate.
  destruct (choose (digests protocols) inputs1) as [[name inputs2]| | |] eqn:E2;
    try discriminate.
  destruct (last (digests protocols)) as [digest|] eqn:El; [|discriminate].
  destruct (choose (cipher_mode protocols) inputs2) as [[mode inputs3]| | |]
    eqn:E3; try discriminate.
  intros [= <- <-]. split; [reflexivity|].
  exists picked, inputs1, inputs2. simpl.
  repeat split; auto; eapply choose_member; eassumption.
Qed.

End ClientExtras.

Section MoreExamples.
Import Server Scenario.
#[local] Existing Instances Plain.crypto Plain.codec Plain.dh.

(** A server just started has answered one key exchange. *)
Lemma after_one_exchange_reachable :
  reachable no_licenses
    (snd (render_POST (kx := Plain.dh) "sid-1" (6, 8) (publickey "19")
            (begin_request fresh))).
Proof. apply reachable_POST. apply (reachable_init no_licenses "PEM" ∅). Qed.

Lemma started_server_never_updates_license_witness :
  let w := snd (render_POST (kx := Plain.dh) "sid-1" (6, 8) (publickey "19")
                  (begin_request fresh)) in
  shared_key (self w) = None /\ username (self w) = None /\
  ledger w = no_licenses /\ no_update (trace w).
Proof.
  exact (started_server_never_updates_license no_licenses _
           after_one_exchange_reachable).
Defined.

Lemma started_server_refuses_later_chunks_witness :
  let w := snd (render_POST (kx := Plain.dh) "sid-1" (6, 8) (publickey "19")
                  (begin_request fresh)) in
  let request :=
    download [("id"%string, [media_id]); ("chunk"%string, ["1"%string])] in
  fst (render_GET CATALOG request (begin_request w)) = Ok ""%string /\
  code (snd (render_GET CATALOG request (begin_request w))) = 500.
Proof.
  apply (started_server_refuses_later_chunks no_licenses _
           (download [("id"%string, [media_id]); ("chunk"%string, ["1"%string])])
           "1" 1 after_one_exchange_reachable).
  - reflexivity.
  - right. exists []. vm_compute. reflexivity.
  - reflexivity.
  - discriminate.
Defined.

Lemma half_negotiation_changes_cipher_witness :
  (let r := render_POST (kx := Plain.dh) "sid-1" (6, 8)
              (mkRequest "/api/suite" {[ "cipher"%string := ["3DEs"%string] ]})
              (world negotiated None ∅) in
   fst r = Ok (Some ""%string) /\
   code (snd r) = 501 /\
   CIPHER (self (snd r)) = Some "3DEs"%string /\
   DIGEST (self (snd r)) = Some "SHA512"%string /\
   CIPHER_MODE (self (snd r)) = Some "CBC"%string) /\
  (let r := render_POST (kx := Plain.dh) "sid-1" (6, 8)
              (mkRequest "/api/suite"
                 {[ "cipher"%string := [String "255"%char ""] ]})
              (world negotiated None ∅) in
   fst r = Ok (Some ""%string) /\
   code (snd r) = 501 /\
   CIPHER (self (snd r)) = Some "AES"%string /\
   DIGEST (self (snd r)) = Some "SHA512"%string /\
   CIPHER_MODE (self (snd r)) = Some "CBC"%string).
Proof.
  split.
  - apply (half_negotiation_changes_cipher (kx := Plain.dh) "sid-1" (6, 8)
             (mkRequest "/api/suite" {[ "cipher"%string := ["3DEs"%string] ]})
             (world negotiated None ∅) "3DEs" []);
      [reflexivity|vm_compute; reflexivity|vm_compute; reflexivity].
  - apply (half_negotiation_changes_cipher (kx := Plain.dh) "sid-1" (6, 8)
             (mkRequest "/api/suite"
                {[ "cipher"%string := [String "255"%char ""] ]})
             (world negotiated None ∅) (String "255"%char "") []);
      [reflexivity|vm_compute; reflexivity|vm_compute; reflexivity].
Defined.

Lemma do_public_key_sessions_witness :
  let run := do_public_key (kx := Plain.dh) "sid-2" (6, 8) (publickey "19")
               (snd (do_public_key (kx := Plain.dh) "sid-1" (5, 9)
                       (publickey "4") fresh)) in
  session_shared_key <$> sessions (self (snd run)) !! "sid-1"%string
    = Some "12"%string.
Proof.
  intros run.
  destruct (do_public_key_sessions (kx := Plain.dh) "sid-2" (6, 8)
              (publickey "19")
              (snd (do_public_key (kx := Plain.dh) "sid-1" (5, 9)
                      (publickey "4") fresh))
              (snd run) (fst run) (surjective_pairing run)) as (Hother & _).
  rewrite (Hother "sid-1"%string) by discriminate.
  vm_compute. reflexivity.
Defined.

Lemma chunk_binding_witness :
  seal_with_chunk "hello" (ChunkInt 0) (world negotiated None ∅)
    = cipher "hello" None (world negotiated None ∅) /\
  (cipher_key negotiated (Some (zeros (Z.to_nat 2)))
     = cipher_key negotiated (Some (zeros (Z.to_nat 2))) -> 2 = 2).
Proof.
  destruct (chunk_binding negotiated "hello" (world negotiated None ∅) "K" 2 2)
    as (H0 & Hinj).
  split; [exact H0|]. intros He. apply Hinj; [reflexivity|lia|lia|exact He].
Defined.



Lemma unknown_media_reply_witness :
  render_GET CATALOG (download [("id"%string, ["no-such-media"%string])])
    (world negotiated (ledger_of 4 7) assets)
  = (Ok ""%string,
     answering 500 "text/plain"
       (answering 404 "application/json"
          (world negotiated (ledger_of 4 7) assets))).
Proof.
  apply (proj2 (unknown_media_reply CATALOG
                  (download [("id"%string, ["no-such-media"%string])])
                  (world negotiated (ledger_of 4 7) assets) eq_refl)
           "no-such-media" []).
  - vm_compute. reflexivity.
  - reflexivity.
Defined.

Lemma chunks_reassemble_witness :
  exists chunks,
    media_summary ("ten"%string, mkMedia "n" "a" "d" 1 "f.mp3" 10)
      = JObj [ ("id"%string, JStr "ten"); ("name"%string, JStr "n");
               ("description"%string, JStr "d");
               ("chunks"%string, JInt chunks);
               ("duration"%string, JInt 1) ] /\
    chunks = 1 /\
    chunk_data "0123456789" 0 = "0123456789"%string.
Proof.
  destruct (chunks_reassemble (kx := Plain.dh) (lic := Plain.file_ledger noon)
              "ten" (mkMedia "n" "a" "d" 1 "f.mp3" 10) "0123456789" eq_refl)
    as (chunks & Hs & Hb & _ & Hall & _).
  exists chunks. split; [exact Hs|].
  assert (Hc : chunks = 1).
  { destruct (Hb 0) as [H0 _]. destruct (Hb 1) as [_ H1].
    specialize (H0 eq_refl).
    destruct (Z.lt_ge_cases 1 chunks) as [Hlt|Hge]; [|lia].
    specialize (H1 ltac:(lia)). vm_compute in H1. discriminate H1. }
  split; [exact Hc|]. reflexivity.
Defined.


Lemma client_suite_mixes_choices_witness :
  Client.suite_cipher (Client.mkSuite "SHA512" "BLAKE2" "OFB")
    ∈ Client.digests offered /\
  last (Client.digests offered) = Some "BLAKE2"%string.
Proof.
  destruct (client_suite_mixes_choices 200 offered
              ["2"; "1"; "2"]%string [] (Client.mkSuite "SHA512" "BLAKE2" "OFB")
              eq_refl)
    as (_ & picked & in1 & in2 & _ & _ & _ & Hc & Hd & _).
  split; [exact Hc|exact Hd].
Defined.

End MoreExamples.
